(** * gensamples.py: three sample files drawn from scipy.stats distributions

    A shallow embedding of [JVD/gensamples.py].  The script opens three
    files in turn with [open(path, 'w')], asks [scipy.stats] for 100
    variates of a distribution, and writes each one with
    ['{}\n'.format(n)].

    - numbers are IEEE-754 binary64 values ([spec_float], precision 53,
      [emax] 1024, round to nearest even), as numpy's [float64] is;
    - the file system is a finite map from paths to contents, with the
      open file objects beside it;
    - the interpreter's state is threaded explicitly through a small
      state-and-exception monad;
    - a file object buffers what is written to it, and the buffer reaches
      the file when the file is closed at the end of the [with] block;
    - what the script cannot control is a parameter: the random source
      behind [scipy.stats] and its seed, the runtime's float-to-string
      conversion, the file-system calls that raise [OSError] and what a
      failing flush leaves in the file. *)

From Stdlib Require Import ZArith String Ascii List Lia Bool.
From Stdlib Require Import Floats.SpecFloat.
From stdpp Require Import base gmap strings list sorting.

Local Open Scope string_scope.

(** ** Binary64 numbers *)

Module B64.

Definition prec : Z := 53.
Definition emax : Z := 1024.

Definition valid (x : spec_float) : bool := valid_binary prec emax x.

Definition add (x y : spec_float) : spec_float := SFadd prec emax x y.
Definition mul (x y : spec_float) : spec_float := SFmul prec emax x y.
Definition leb (x y : spec_float) : bool := SFleb x y.
Definition ltb (x y : spec_float) : bool := SFltb x y.

(** The literal with integer value [n]. *)
Definition of_Z (n : Z) : spec_float := binary_normalize prec emax n 0 false.

Definition zero : spec_float := S754_zero false.
Definition one : spec_float := Eval vm_compute in of_Z 1.

(** The largest binary64 number below 1, [1 - 2^-53]. *)
Definition pred_one : spec_float := S754_finite false (2 ^ 53 - 1) (-53).

End B64.

Abbreviation float := spec_float.

(** The float literals of the script. *)
Definition f100 : float := Eval vm_compute in B64.of_Z 100.
Definition f10 : float := Eval vm_compute in B64.of_Z 10.
Definition f75 : float := Eval vm_compute in B64.of_Z 75.
Definition f50 : float := Eval vm_compute in B64.of_Z 50.
Definition f0 : float := B64.zero.
Definition f125 : float := Eval vm_compute in B64.of_Z 125.

(** Membership in the half-open unit interval, for a well-formed number. *)
Definition in_unit_interval (u : float) : bool :=
  B64.valid u && B64.leb f0 u && B64.ltb u B64.one.

(** The rounding exponent of binary64, and the number of low bits that
    rounding drops from mantissa [m] at exponent [e]. *)
Definition fexp64 (e : Z) : Z := fexp B64.prec B64.emax e.
Definition drop (m e : Z) : Z := Z.max 0 (fexp64 (Zdigits2 m + e) - e).

(** ** Text *)

Definition LF : ascii := "010"%char.
Definition newline : string := String LF EmptyString.

(** Number of line terminators of a text. *)
Fixpoint count_lines (s : string) : nat :=
  match s with
  | EmptyString => 0
  | String c s' => (if Ascii.eqb c LF then 1 else 0) + count_lines s'
  end.

(** The terminated lines of a text, without their terminators; characters
    after the last terminator belong to no line. *)
Fixpoint lines_from (cur : string) (s : string) : list string :=
  match s with
  | EmptyString => []
  | String c s' =>
      if Ascii.eqb c LF then cur :: lines_from EmptyString s'
      else lines_from (cur +:+ String c EmptyString) s'
  end.

Definition lines (s : string) : list string := lines_from EmptyString s.

Fixpoint concat_str (l : list string) : string :=
  match l with
  | [] => EmptyString
  | s :: l' => s +:+ concat_str l'
  end.

(** ** What Python's [float()] accepts

    [sign? (inf | nan | digits+ (. digits* )? (e sign? digits+)?)], the
    forms that the default conversion of a float produces (the parser
    itself accepts a few more). *)

Definition is_digit (c : ascii) : bool :=
  let n := nat_of_ascii c in Nat.leb 48 n && Nat.leb n 57.

Fixpoint all_digits (s : string) : bool :=
  match s with
  | EmptyString => true
  | String c s' => is_digit c && all_digits s'
  end.

Definition nonempty_digits (s : string) : bool :=
  match s with
  | EmptyString => false
  | _ => all_digits s
  end.

Definition strip_sign (s : string) : string :=
  match s with
  | String "-" s' => s'
  | String "+" s' => s'
  | _ => s
  end.

(** Split at the first occurrence of [c]: the part before it, and the part
    after it when [c] occurs. *)
Fixpoint split_at (c : ascii) (s : string) : string * option string :=
  match s with
  | EmptyString => (EmptyString, None)
  | String d s' =>
      if Ascii.eqb d c then (EmptyString, Some s')
      else let '(a, b) := split_at c s' in (String d a, b)
  end.

Definition is_float_literal (s : string) : bool :=
  let body := strip_sign s in
  if String.eqb body "inf" then true
  else if String.eqb body "nan" then true
  else
    let '(mant, expo) := split_at "e" body in
    let '(ip, fp) := split_at "." mant in
    nonempty_digits ip
    && match fp with None => true | Some f => all_digits f end
    && match expo with
       | None => true
       | Some x => nonempty_digits (strip_sign x)
       end.

(** ** A conversion of floats to text

    The exact decimal value of a binary64 number, as [digits.0] when it is
    an integer and as [digits e-k] otherwise.  It is one conversion that
    Python's [float()] reads back to the same number; the runtime's own
    (the shortest such text) stays a parameter of the script. *)

Definition digit_char (n : N) : ascii := ascii_of_N (48 + n mod 10).

Fixpoint decimal_go (fuel : nat) (n : N) (acc : string) : string :=
  match fuel with
  | O => acc
  | S fuel' =>
      let acc' := String (digit_char n) acc in
      if (n / 10 =? 0)%N then acc' else decimal_go fuel' (n / 10)%N acc'
  end.

Definition decimal (n : N) : string :=
  decimal_go (S (N.to_nat (N.log2 n))) n EmptyString.

(** Drop the factors of two that mantissa and negative exponent share. *)
Fixpoint reduce (m : positive) (e : Z) : positive * Z :=
  match m with
  | xO p => if (e <? 0)%Z then reduce p (e + 1) else (m, e)
  | _ => (m, e)
  end.

Definition exact_finite (m : positive) (e : Z) : string :=
  let '(m', e') := reduce m e in
  if (0 <=? e')%Z then decimal (Npos m' * 2 ^ Z.to_N e') +:+ ".0"
  else decimal (Npos m' * 5 ^ Z.to_N (- e')) +:+ "e-" +:+ decimal (Z.to_N (- e')).

Definition sign_str (s : bool) : string := if s then "-" else EmptyString.

Definition exact_str (x : float) : string :=
  match x with
  | S754_zero s => sign_str s +:+ "0.0"
  | S754_infinity s => sign_str s +:+ "inf"
  | S754_nan => "nan"
  | S754_finite s m e => sign_str s +:+ exact_finite m e
  end.

(** ** The interpreter state *)

Inductive dist := Norm | Uniform | Expon.

(** What a run does, in order.  [EvWrite] is a call of [f.write], which
    only fills the buffer of the file object; [EvFlush] is the buffer
    reaching the file when the file is closed, and [EvFlushFail] the part
    of it that reached the file before the file system raised. *)
Inductive event :=
| EvOpen (path : string)
| EvOpenFail (path : string)
| EvRvs (d : dist) (loc scale : float) (size : nat)
| EvWrite (path : string) (data : string)
| EvFlush (path : string) (data : string)
| EvFlushFail (path : string) (data : string)
| EvClose (path : string).

Inductive exn := OSError (path : string).

Inductive result (A : Type) :=
| Ok (a : A)
| Raise (e : exn).
Arguments Ok {A} a.
Arguments Raise {A} e.

(** What the script does not control:
    - the state of the random source behind [scipy.stats] and its three
      standard samplers (numpy's [standard_normal], [random_sample] and
      [standard_exponential]);
    - [seed k]: the state with which the generator of a new process is
      seeded (the script sets no seed, so the system chooses it);
    - the runtime's default conversion of a float to text, ['{}'.format];
    - [faults n]: whether the [n]-th file-system call that can raise does
      raise [OSError].  These calls are the [open] of a file and the
      flush of its buffer when it is closed: the lines of one file (100
      conversions of a float) stay in the buffer of the file object until
      then, so [f.write] itself makes no such call;
    - [short_write n]: when the [n]-th call is a flush that raises, the
      number of characters of the buffer that reach the file before the
      error (none, some, or all of them). *)
Class Runtime (RNG : Type) := {
  standard_normal : RNG -> float * RNG;
  random_sample : RNG -> float * RNG;
  standard_exponential : RNG -> float * RNG;
  seed : nat -> RNG;
  float_str : float -> string;
  faults : nat -> bool;
  short_write : nat -> nat
}.

(** The files on disk; the open file objects, each with the text it has
    buffered; the number of fallible file-system calls made so far (the
    file system outlives a process, and so does this count); the state of
    the process's random generator; the events of the process so far. *)
Record world (RNG : Type) := World {
  files : gmap string string;
  handles : gmap string string;
  clock : nat;
  random_state : RNG;
  trace : list event
}.
Arguments World {RNG} _ _ _ _ _.
Arguments files {RNG} _.
Arguments handles {RNG} _.
Arguments clock {RNG} _.
Arguments random_state {RNG} _.
Arguments trace {RNG} _.

Definition normal_txt : string := "data/normal.txt".
Definition uniform_txt : string := "data/uniform.txt".
Definition exponential_txt : string := "data/exponential.txt".

(** The first [n] characters of a text, or all of it when it is shorter. *)
Fixpoint prefix (n : nat) (s : string) : string :=
  match n, s with
  | S n', String c s' => String c (prefix n' s')
  | _, _ => EmptyString
  end.

Section Script.

Context {RNG : Type} `{R : Runtime RNG}.

Definition py (A : Type) : Type := world RNG -> result A * world RNG.

Definition ret {A} (a : A) : py A := fun w => (Ok a, w).

Definition bind {A B} (m : py A) (k : A -> py B) : py B :=
  fun w =>
    match m w with
    | (Ok a, w') => k a w'
    | (Raise e, w') => (Raise e, w')
    end.

Notation "x <- m ;; k" := (bind m (fun x => k))
  (at level 100, m at next level, right associativity).
Notation "m ;;; k" := (bind m (fun _ => k))
  (at level 100, right associativity).

(** [open(path, 'w')]: creates the file or truncates it, and returns a
    file object with an empty buffer.  When it raises, nothing changes. *)
Definition open_w (path : string) : py string :=
  fun w =>
    if faults (clock w) then
      (Raise (OSError path),
       World (files w) (handles w) (S (clock w)) (random_state w)
             (trace w ++ [EvOpenFail path]))
    else
      (Ok path,
       World (<[path := EmptyString]> (files w))
             (<[path := EmptyString]> (handles w))
             (S (clock w)) (random_state w) (trace w ++ [EvOpen path])).

(** [f.write(data)]: appends to the buffer of the file object.  Nothing
    reaches the file system, so nothing raises. *)
Definition write (f : string) (data : string) : py unit :=
  fun w =>
    (Ok tt,
     World (files w) (alter (fun b => b +:+ data) f (handles w))
           (clock w) (random_state w) (trace w ++ [EvWrite f data])).

(** [f.close()]: flushes the buffer to the file and releases the file
    object.  When the flush raises, a part of the buffer may have reached
    the file; the file object is released all the same, and the error is
    raised after that. *)
Definition close (f : string) : py unit :=
  fun w =>
    let buffer := default EmptyString (handles w !! f) in
    if faults (clock w) then
      let part := prefix (short_write (clock w)) buffer in
      (Raise (OSError f),
       World (alter (fun c => c +:+ part) f (files w)) (delete f (handles w))
             (S (clock w)) (random_state w)
             (trace w ++ [EvFlushFail f part; EvClose f]))
    else
      (Ok tt,
       World (alter (fun c => c +:+ buffer) f (files w)) (delete f (handles w))
             (S (clock w)) (random_state w)
             (trace w ++ [EvFlush f buffer; EvClose f])).

(** [with open(path, 'w') as f: body]: the file is closed on the way out,
    whether [body] returns or raises; an exception of the closing takes
    the place of the result of [body]. *)
Definition with_open {A} (path : string) (body : string -> py A) : py A :=
  fun w =>
    match open_w path w with
    | (Raise e, w') => (Raise e, w')
    | (Ok f, w') =>
        let '(r, w'') := body f w' in
        match close f w'' with
        | (Ok _, w''') => (r, w''')
        | (Raise e, w''') => (Raise e, w''')
        end
    end.

Definition sampler (d : dist) : RNG -> float * RNG :=
  match d with
  | Norm => standard_normal
  | Uniform => random_sample
  | Expon => standard_exponential
  end.

(** [size] successive standard variates, and the state they leave. *)
Fixpoint draws (d : dist) (size : nat) (r : RNG) : list float * RNG :=
  match size with
  | O => ([], r)
  | S n =>
      let '(z, r') := sampler d r in
      let '(zs, r'') := draws d n r' in
      (z :: zs, r'')
  end.

(** [st.<dist>.rvs(loc=, scale=, size=)]: scipy draws [size] standard
    variates and returns [vals * scale + loc], computed element by element
    in binary64: one rounding after the product, one after the sum. *)
Definition shift_scale (loc scale z : float) : float :=
  B64.add (B64.mul z scale) loc.

Definition rvs (d : dist) (loc scale : float) (size : nat)
  : py (list float) :=
  fun w =>
    let '(zs, r') := draws d size (random_state w) in
    (Ok (map (shift_scale loc scale) zs),
     World (files w) (handles w) (clock w) r'
           (trace w ++ [EvRvs d loc scale size])).

Fixpoint for_each {A} (xs : list A) (body : A -> py unit) : py unit :=
  match xs with
  | [] => ret tt
  | x :: xs' => body x ;;; for_each xs' body
  end.

(** ['{}\n'.format(n)] *)
Definition format_line (n : float) : string := float_str n +:+ newline.

(** One [with] block of the script.  The file is opened first; [rvs] is
    evaluated once, when the [for] loop starts; the handle is closed when
    the block is left. *)
Definition sample_block (path : string) (d : dist) (loc scale : float)
    (size : nat) : py unit :=
  with_open path (fun f =>
    xs <- rvs d loc scale size ;;
    for_each xs (fun n => write f (format_line n))).

(** The module body. *)
Definition gensamples : py unit :=
  sample_block normal_txt Norm f100 f10 100 ;;;
  sample_block uniform_txt Uniform f75 f50 100 ;;;
  sample_block exponential_txt Expon f0 f100 100.

(** The interpreter's exit status: 0 when the module body returns, 1 when
    an exception reaches the top level. *)
Definition exit_status {A} (r : result A) : Z :=
  match r with
  | Ok _ => 0
  | Raise _ => 1
  end.

Definition python_main (w : world RNG) : Z * world RNG :=
  let '(r, w') := gensamples w in (exit_status r, w').

(** A new process on the file system that the last one left: no open file
    object, a freshly seeded generator, no event yet. *)
Definition new_process (k : nat) : py unit :=
  fun w => (Ok tt, World (files w) ∅ (clock w) (seed k) []).

(** [n] runs of the script, each in a process of its own, one after the
    other as long as they succeed; [w] gives the file system that the
    first one finds. *)
Fixpoint rerun (n : nat) : py unit :=
  match n with
  | O => ret tt
  | S n' => rerun n' ;;; new_process n' ;;; gensamples
  end.

(** *** Vocabulary of the statements *)

(** The values that [rvs] returns from random state [r], and the state it
    leaves. *)
Definition generated (d : dist) (loc scale : float) (size : nat) (r : RNG)
  : list float :=
  map (shift_scale loc scale) (fst (draws d size r)).

Definition rng_after (d : dist) (size : nat) (r : RNG) : RNG :=
  snd (draws d size r).

(** The standard variates that a complete run consumes from state [r]:
    100 normal ones, then 100 uniform ones, then 100 exponential ones. *)
Definition variates (r : RNG) : list float * list float * list float :=
  let r1 := rng_after Norm 100 r in
  let r2 := rng_after Uniform 100 r1 in
  (fst (draws Norm 100 r), fst (draws Uniform 100 r1),
   fst (draws Expon 100 r2)).

(** The text of a file that holds [vs]. *)
Definition written (vs : list float) : string :=
  concat_str (map format_line vs).

Definition writes (path : string) (vs : list float) : list event :=
  map (fun v => EvWrite path (format_line v)) vs.

(** The events of a block that completes, and of one whose closing flush
    raises after [part] reached the file. *)
Definition block_events (path : string) (d : dist) (loc scale : float)
    (size : nat) (vs : list float) : list event :=
  EvOpen path :: EvRvs d loc scale size
    :: writes path vs ++ [EvFlush path (written vs); EvClose path].

Definition failed_events (path : string) (d : dist) (loc scale : float)
    (size : nat) (vs : list float) (part : string) : list event :=
  EvOpen path :: EvRvs d loc scale size
    :: writes path vs ++ [EvFlushFail path part; EvClose path].

(** No fallible call among the [n] calls from the [c]-th on raises. *)
Definition no_faults (c n : nat) : Prop :=
  forall k, c <= k < c + n -> faults k = false.

(** The state a block leaves when it completes: two fallible calls were
    made, the [open] and the closing flush. *)
Definition block_done (path : string) (d : dist) (loc scale : float)
    (size : nat) (w : world RNG) : world RNG :=
  let vs := generated d loc scale size (random_state w) in
  World (<[path := written vs]> (files w))
        (delete path (handles w))
        (S (S (clock w)))
        (rng_after d size (random_state w))
        (trace w ++ block_events path d loc scale size vs).

(** The state it leaves when its [open] raises, and when its closing
    flush raises. *)
Definition block_open_failed (path : string) (w : world RNG) : world RNG :=
  World (files w) (handles w) (S (clock w)) (random_state w)
        (trace w ++ [EvOpenFail path]).

Definition block_flush_failed (path : string) (d : dist)
    (loc scale : float) (size : nat) (w : world RNG) : world RNG :=
  let vs := generated d loc scale size (random_state w) in
  let part := prefix (short_write (S (clock w))) (written vs) in
  World (<[path := part]> (files w))
        (delete path (handles w))
        (S (S (clock w)))
        (rng_after d size (random_state w))
        (trace w ++ failed_events path d loc scale size vs part).

(** A block fails from [w] to [w']: at its [open], or at its closing
    flush after the [open] went through. *)
Definition block_fails (path : string) (d : dist) (loc scale : float)
    (size : nat) (w w' : world RNG) : Prop :=
  (faults (clock w) = true /\ w' = block_open_failed path w)
  \/ (faults (clock w) = false
      /\ faults (S (clock w)) = true
      /\ w' = block_flush_failed path d loc scale size w).

(** The three blocks of the script, as completed steps. *)
Definition done1 (w : world RNG) : world RNG :=
  block_done normal_txt Norm f100 f10 100 w.
Definition done2 (w : world RNG) : world RNG :=
  block_done uniform_txt Uniform f75 f50 100 (done1 w).
Definition done3 (w : world RNG) : world RNG :=
  block_done exponential_txt Expon f0 f100 100 (done2 w).

(** Two states of one process that differ at most in the files on disk. *)
Definition same_process (w v : world RNG) : Prop :=
  handles w = handles v /\ clock w = clock v
  /\ random_state w = random_state v /\ trace w = trace v.

(** Every path holds the same in [fw'] and [fv'], or holds in each what it
    held in [fw] and [fv]: rewritten alike, or untouched. *)
Definition same_or_untouched (fw fv fw' fv' : gmap string string) : Prop :=
  forall p : string,
    fv' !! p = fw' !! p \/ (fv' !! p = fv !! p /\ fw' !! p = fw !! p).

End Script.

(** The position of an event in the script: 0 for the normal block, 1 for
    the uniform block, 2 for the exponential block. *)
Definition stage_of_path (p : string) : nat :=
  if String.eqb p normal_txt then 0
  else if String.eqb p uniform_txt then 1 else 2.

Definition stage_of_dist (d : dist) : nat :=
  match d with Norm => 0 | Uniform => 1 | Expon => 2 end.

Definition stage (e : event) : nat :=
  match e with
  | EvOpen p | EvOpenFail p | EvWrite p _ | EvFlush p _ | EvFlushFail p _
  | EvClose p =>
      stage_of_path p
  | EvRvs d _ _ _ => stage_of_dist d
  end.

(** The events of a run are in script order when their stages never
    decrease. *)
Definition in_script_order (evs : list event) : Prop :=
  StronglySorted (fun a b => stage a <= stage b) evs.

(** The calls to [rvs] among some events, with their arguments. *)
Definition rvs_call (e : event) : option (dist * float * float * nat) :=
  match e with
  | EvRvs d loc scale size => Some (d, loc, scale, size)
  | _ => None
  end.

Definition rvs_calls (evs : list event) : list (dist * float * float * nat) :=
  omap rvs_call evs.

Definition outputs : list string := [normal_txt; uniform_txt; exponential_txt].

(** ** Test doubles

    A random source that replays a tape, a runtime that converts floats
    with [exact_str], and file systems that never fail or fail at one
    call, letting 550 characters through when that call is a flush. *)

Definition tape_next (r : list float) : float * list float :=
  match r with
  | [] => (f0, [])
  | z :: r' => (z, r')
  end.

Definition fault_at (k : nat) : nat -> bool := fun n => Nat.eqb n k.
Definition no_fault : nat -> bool := fun _ => false.

Definition half : float := S754_finite false (2 ^ 52) (-53).
Definition minus_two : float := Eval vm_compute in B64.of_Z (-2).

(** 100 standard normal variates, 100 uniform ones (the last is the
    largest number below 1) and 100 standard exponential ones. *)
Definition demo_tape : list float :=
  repeat minus_two 100
  ++ (repeat half 99 ++ [B64.pred_one])
  ++ repeat B64.one 100.

Definition tape_runtime (flt : nat -> bool) : Runtime (list float) :=
  {| standard_normal := tape_next;
     random_sample := tape_next;
     standard_exponential := tape_next;
     seed := fun _ => demo_tape;
     float_str := exact_str;
     faults := flt;
     short_write := fun _ => 550 |}.

(** A second random source: a cursor into a fixed tape; the generator of
    the [k]-th new process starts [300 * k] values into the tape. *)
Definition cursor_next (tape : list float) (n : nat) : float * nat :=
  (nth n tape f0, S n).

Definition cursor_runtime (tape : list float) (flt : nat -> bool)
  : Runtime nat :=
  {| standard_normal := cursor_next tape;
     random_sample := cursor_next tape;
     standard_exponential := cursor_next tape;
     seed := fun k => 300 * k;
     float_str := exact_str;
     faults := flt;
     short_write := fun _ => 550 |}.

(** A fresh process in an empty [data/] directory, and one in a directory
    that holds the files of an earlier run. *)
Definition fresh_world : world (list float) :=
  World ∅ ∅ 0 demo_tape [].

Definition stale_world : world (list float) :=
  World (<[uniform_txt := "old" +:+ newline]>
           (<[exponential_txt := "older" +:+ newline]> ∅))
        ∅ 0 demo_tape [].

Definition cursor_world : world nat :=
  World ∅ ∅ 7 0 [].

(** ** Further vocabulary *)

(** The random state that one complete run leaves. *)
Definition after_run {RNG : Type} `{R : Runtime RNG} (r : RNG) : RNG :=
  rng_after Expon 100 (rng_after Uniform 100 (rng_after Norm 100 r)).

(** The handles that are open after some events, from the set [h] open
    before them: [open] adds one and [close] removes one, as in [open_w]
    and [close]. *)
Definition holds_after (h : gset string) (e : event) : gset string :=
  match e with
  | EvOpen p => {[p]} ∪ h
  | EvClose p => h ∖ {[p]}
  | _ => h
  end.

Definition held (h : gset string) (evs : list event) : gset string :=
  fold_left holds_after evs h.

(** The events that neither open nor close a file. *)
Definition neutral (e : event) : Prop :=
  match e with
  | EvOpen _ | EvClose _ => False
  | _ => True
  end.

(** Between its [open] and its [close] a file is the only one held, and
    none is held at the end. *)
Definition one_at_a_time (evs : list event) : Prop :=
  held ∅ evs = ∅ /\ forall n, size (held ∅ (take n evs)) <= 1.

Definition is_nan (x : float) : bool :=
  match x with
  | S754_nan => true
  | _ => false
  end.

(** The sign bit of a number (clear for NaN, which has none here). *)
Definition sign_bit (x : float) : bool :=
  match x with
  | S754_zero s | S754_infinity s | S754_finite s _ _ => s
  | S754_nan => false
  end.

Definition notes_txt : string := "data/notes.txt".

(** A directory that holds a file of the user beside an old output. *)
Definition crowded_world : world (list float) :=
  World (<[notes_txt := "keep me" +:+ newline]>
           (<[normal_txt := "old" +:+ newline]> ∅))
        ∅ 0 demo_tape [].

Definition minus_zero : float := S754_zero true.

(** A tape whose exponential part starts with a negative zero, which
    [-log(1 - u)] yields for [u = 0]. *)
Definition signed_zero_tape : list float :=
  repeat minus_two 100 ++ repeat half 100 ++ (minus_zero :: repeat B64.one 99).

(** * Facts about binary64 rounding *)

Section Binary64Facts.

Local Open Scope Z_scope.


Lemma digits2_size p : digits2_pos p = Pos.size p.
Proof. induction p; simpl; congruence. Qed.

Lemma digits2_log2 p : Zpos (digits2_pos p) = Z.log2 (Zpos p) + 1.
Proof.
  rewrite digits2_size. destruct p; simpl; lia.
Qed.

Lemma digits2_bounds p :
  2 ^ (Zpos (digits2_pos p) - 1) <= Zpos p < 2 ^ Zpos (digits2_pos p).
Proof.
  rewrite digits2_log2.
  replace (Z.log2 (Zpos p) + 1 - 1) with (Z.log2 (Zpos p)) by lia.
  apply (Z.log2_spec (Zpos p)). lia.
Qed.

Lemma shr_1_spec m r s :
  0 <= m ->
  shr_1 {| shr_m := m; shr_r := r; shr_s := s |}
  = {| shr_m := Z.div2 m; shr_r := Z.odd m; shr_s := r || s |}.
Proof. intros Hm. destruct m as [|p|p]; [ | destruct p | lia]; reflexivity. Qed.

Lemma iter_pos_nat {A} (f : A -> A) p : forall x,
  SpecFloat.iter_pos f p x = Nat.iter (Pos.to_nat p) f x.
Proof.
  induction p as [p IH|p IH|]; intros x; simpl SpecFloat.iter_pos.
  - rewrite !IH, Pos2Nat.inj_xI. 
    replace (S (2 * Pos.to_nat p))%nat with (Pos.to_nat p + (Pos.to_nat p + 1))%nat by lia.
    rewrite !Nat.iter_add. reflexivity.
  - rewrite !IH, Pos2Nat.inj_xO.
    replace (2 * Pos.to_nat p)%nat with (Pos.to_nat p + Pos.to_nat p)%nat by lia.
    rewrite Nat.iter_add. reflexivity.
  - reflexivity.
Qed.

Lemma shr_iter_spec m (k : nat) :
  0 <= m ->
  exists r s,
    Nat.iter k shr_1 {| shr_m := m; shr_r := false; shr_s := false |}
    = {| shr_m := m / 2 ^ Z.of_nat k; shr_r := r; shr_s := s |}
    /\ (m mod 2 ^ Z.of_nat k = 0 -> r = false /\ s = false).
Proof.
  intros Hm. induction k as [|k (r & s & E & Hex)].
  - exists false, false. simpl. rewrite Z.div_1_r. auto.
  - rewrite Nat.iter_succ, E.
    assert (Hq : 0 <= m / 2 ^ Z.of_nat k) by (apply Z.div_pos; lia).
    rewrite shr_1_spec by exact Hq.
    exists (Z.odd (m / 2 ^ Z.of_nat k)), (r || s)%bool.
    assert (Hp : 0 < 2 ^ Z.of_nat k) by (apply Z.pow_pos_nonneg; lia).
    assert (E2 : 2 ^ Z.of_nat (S k) = 2 ^ Z.of_nat k * 2)
      by (rewrite Nat2Z.inj_succ, Z.pow_succ_r; lia).
    split.
    + rewrite Z.div2_div, E2, Z.div_div by lia. reflexivity.
    + rewrite E2. intros H0.
      assert (Hd : m = 2 ^ Z.of_nat k * 2 * (m / (2 ^ Z.of_nat k * 2)))
        by (apply Z.div_exact; lia).
      set (c := m / (2 ^ Z.of_nat k * 2)) in Hd.
      assert (Hk : m mod 2 ^ Z.of_nat k = 0).
      { rewrite Hd. replace (2 ^ Z.of_nat k * 2 * c) with ((2 * c) * 2 ^ Z.of_nat k) by ring.
        apply Z.mod_mul. lia. }
      destruct (Hex Hk) as [-> ->]. split; [|reflexivity].
      replace (m / 2 ^ Z.of_nat k) with (2 * c).
      * rewrite Z.odd_mul. reflexivity.
      * rewrite Hd at 1. replace (2 ^ Z.of_nat k * 2 * c) with ((2 * c) * 2 ^ Z.of_nat k) by ring.
        rewrite Z.div_mul by lia. reflexivity.
Qed.


Lemma fexp64_eq e : fexp64 e = Z.max (e - 53) (-1074).
Proof. reflexivity. Qed.


Lemma shr_fexp_spec m e :
  0 <= m ->
  exists r s,
    shr_fexp 53 1024 m e loc_Exact
    = ({| shr_m := m / 2 ^ drop m e; shr_r := r; shr_s := s |}, e + drop m e)
    /\ (m mod 2 ^ drop m e = 0 -> r = false /\ s = false).
Proof.
  intros Hm. unfold shr_fexp, drop. change (fexp 53 1024) with fexp64.
  simpl shr_record_of_loc.
  destruct (fexp64 (Zdigits2 m + e) - e) as [|p|p] eqn:En; simpl shr.
  - exists false, false. rewrite Z.max_l by lia. change (2 ^ 0) with 1.
    rewrite Z.div_1_r, Z.add_0_r. split; [reflexivity | auto].
  - rewrite Z.max_r by lia. rewrite iter_pos_nat.
    destruct (shr_iter_spec m (Pos.to_nat p) Hm) as (r & s & E & Hex).
    rewrite positive_nat_Z in E, Hex. exists r, s. simpl shr_record_of_loc. rewrite E. auto.
  - exists false, false. rewrite Z.max_l by lia. change (2 ^ 0) with 1.
    rewrite Z.div_1_r, Z.add_0_r. split; [reflexivity | auto].
Qed.

Lemma round_nearest_even_spec q r s :
  let q' := round_nearest_even q (loc_of_shr_record {| shr_m := q; shr_r := r; shr_s := s |}) in
  (q' = q \/ q' = q + 1) /\ (r = false /\ s = false -> q' = q).
Proof.
  destruct r, s; simpl; try destruct (Z.even q); split; auto; intros [? ?]; discriminate.
Qed.

(** The rounding of a non-negative mantissa, in arithmetic. *)
Lemma binary_round_aux_spec m e :
  0 <= m ->
  exists q',
    (q' = m / 2 ^ drop m e \/ q' = m / 2 ^ drop m e + 1)
    /\ (m mod 2 ^ drop m e = 0 -> q' = m / 2 ^ drop m e)
    /\ binary_round_aux 53 1024 false m e loc_Exact
       = let e' := e + drop m e in
         let e'' := e' + drop q' e' in
         match q' / 2 ^ drop q' e' with
         | Z0 => S754_zero false
         | Zpos p => if e'' <=? 971 then S754_finite false p e'' else S754_infinity false
         | Zneg _ => S754_nan
         end.
Proof.
  intros Hm. unfold binary_round_aux.
  destruct (shr_fexp_spec m e Hm) as (r & s & E & Hex). rewrite E.
  destruct (round_nearest_even_spec (m / 2 ^ drop m e) r s) as [Hq Hq0].
  set (q' := round_nearest_even _ _) in *. simpl shr_m at 1.
  assert (Hq' : 0 <= q').
  { assert (0 <= m / 2 ^ drop m e) by (apply Z.div_pos; [lia | apply Z.pow_pos_nonneg; unfold drop; lia]).
    lia. }
  destruct (shr_fexp_spec q' (e + drop m e) Hq') as (r2 & s2 & E2 & _).
  exists q'. split; [exact Hq|]. split; [auto|].
  cbv zeta. 
  change (shr_m {| shr_m := m / 2 ^ drop m e; shr_r := r; shr_s := s |}) with (m / 2 ^ drop m e).
  fold q'. rewrite E2. simpl shr_m. reflexivity.
Qed.

Lemma Zdigits2_pos_bounds m :
  0 < m -> 2 ^ (Zdigits2 m - 1) <= m < 2 ^ Zdigits2 m.
Proof. destruct m as [|p|p]; try lia. intros _. apply digits2_bounds. Qed.

Lemma pow2_pos k : 0 <= k -> 0 < 2 ^ k.
Proof. intros. apply Z.pow_pos_nonneg; lia. Qed.

Lemma pow2_add j k : 0 <= j -> 0 <= k -> 2 ^ (j + k) = 2 ^ j * 2 ^ k.
Proof. intros. apply Z.pow_add_r; assumption. Qed.

(** A positive mantissa below [b * 2^D] with [b] on 53 bits has at most
    [53 + D] digits. *)
Lemma digits_le m b D :
  0 < m -> 0 <= D -> b < 2 ^ 53 -> m <= b * 2 ^ D -> Zdigits2 m - 53 <= D.
Proof.
  intros Hm HD Hb Hle.
  destruct (Zdigits2_pos_bounds m Hm) as [Hlo _].
  assert (H2 : 0 < 2 ^ D) by (apply pow2_pos; lia).
  assert (Hlt : 2 ^ (Zdigits2 m - 1) < 2 ^ (53 + D)).
  { rewrite (pow2_add 53 D) by lia. nia. }
  destruct (Z_le_gt_dec (Zdigits2 m - 53) D) as [|Hgt]; [assumption|].
  exfalso. assert (2 ^ (53 + D) <= 2 ^ (Zdigits2 m - 1)) by (apply Z.pow_le_mono_r; lia). lia.
Qed.

Lemma drop_nonneg m e : 0 <= drop m e.
Proof. unfold drop. lia. Qed.

Lemma div_pow2_between a b m n D :
  0 <= n <= D -> a * 2 ^ D <= m <= b * 2 ^ D ->
  a * 2 ^ (D - n) <= m / 2 ^ n <= b * 2 ^ (D - n).
Proof.
  intros Hn [Hlo Hhi].
  assert (Hp : 0 < 2 ^ n) by (apply pow2_pos; lia).
  assert (ED : 2 ^ D = 2 ^ (D - n) * 2 ^ n)
    by (rewrite <- pow2_add by lia; f_equal; lia).
  rewrite ED in Hlo, Hhi. split.
  - apply Z.div_le_lower_bound; [exact Hp|]. nia.
  - apply Z.div_le_upper_bound; [exact Hp|]. nia.
Qed.

(** Rounding is monotone against bounds that are themselves representable
    at the exponent [eb]: a value between [a * 2^eb] and [b * 2^eb] rounds
    to a number between them. *)
Lemma round_between (mx : positive) (ex a b eb : Z) :
  0 <= a -> 0 < b < 2 ^ 53 -> -1074 <= eb <= 971 -> ex <= eb ->
  a * 2 ^ (eb - ex) <= Zpos mx <= b * 2 ^ (eb - ex) ->
  match binary_round_aux 53 1024 false (Zpos mx) ex loc_Exact with
  | S754_zero sgn => sgn = false /\ a = 0
  | S754_finite sgn m e =>
      sgn = false /\ ex <= e <= eb /\ Zpos m < 2 ^ 53
      /\ a * 2 ^ (eb - e) <= Zpos m <= b * 2 ^ (eb - e)
  | _ => False
  end.
Proof.
  intros Ha Hb Heb Hex Hval.
  destruct (binary_round_aux_spec (Zpos mx) ex) as (q' & Hq & Hexact & ->); [lia|].
  set (D := eb - ex) in *.
  set (n := drop (Zpos mx) ex) in *.
  assert (HD : 0 <= D) by (unfold D; lia).
  assert (Hn : 0 <= n <= D).
  { split; [apply drop_nonneg|].
    assert (Zdigits2 (Zpos mx) - 53 <= D) by (apply (digits_le _ b); lia).
    unfold n, drop. rewrite fexp64_eq. unfold D in *. lia. }
  assert (He' : -1074 <= ex + n).
  { unfold n, drop. rewrite fexp64_eq. lia. }
  pose proof (div_pow2_between a b (Zpos mx) n D Hn Hval) as Hq0.
  set (q := Zpos mx / 2 ^ n) in *.
  assert (Hpn : 0 < 2 ^ n) by (apply pow2_pos; lia).
  assert (HpD : 0 < 2 ^ (D - n)) by (apply pow2_pos; lia).
  assert (Hq' : a * 2 ^ (D - n) <= q' <= b * 2 ^ (D - n)).
  { destruct Hq as [-> | ->]; [exact Hq0|]. split; [lia|].
    destruct (Z.eq_dec q (b * 2 ^ (D - n))) as [Eq|]; [|lia].
    exfalso.
    assert (Hm : 2 ^ n * q <= Zpos mx) by (apply Z.mul_div_le; lia).
    assert (ED : 2 ^ D = 2 ^ (D - n) * 2 ^ n)
      by (rewrite <- pow2_add by lia; f_equal; lia).
    assert (Emx : Zpos mx = q * 2 ^ n) by (rewrite Eq in Hm |- *; rewrite ED in Hval; nia).
    assert (Hmod : Zpos mx mod 2 ^ n = 0) by (rewrite Emx; apply Z.mod_mul; lia).
    specialize (Hexact Hmod). lia. }
  assert (Hq'0 : 0 <= q') by nia.
  set (n2 := drop q' (ex + n)) in *.
  assert (Hn2 : 0 <= n2 <= D - n).
  { split; [apply drop_nonneg|].
    unfold n2, drop. rewrite fexp64_eq.
    destruct (Z.eq_dec q' 0) as [->|Hne].
    - simpl Zdigits2. lia.
    - assert (Zdigits2 q' - 53 <= D - n) by (apply (digits_le _ b); lia).
      lia. }
  pose proof (div_pow2_between a b q' n2 (D - n) Hn2 Hq') as Hm3.
  assert (Hlt53 : q' / 2 ^ n2 < 2 ^ 53).
  { assert (Hpn2 : 0 < 2 ^ n2) by (apply pow2_pos; lia).
    destruct (Z.eq_dec q' 0) as [->|Hne].
    - rewrite Z.div_0_l by lia. lia.
    - apply Z.div_lt_upper_bound; [exact Hpn2|].
      destruct (Zdigits2_pos_bounds q') as [_ Hhi]; [lia|].
      assert (Zdigits2 q' <= n2 + 53).
      { unfold n2, drop. rewrite fexp64_eq. lia. }
      assert (2 ^ Zdigits2 q' <= 2 ^ (n2 + 53)) by (apply Z.pow_le_mono_r; lia).
      rewrite (pow2_add n2 53) in * by lia. lia. }
  cbv zeta. change (drop q' (ex + n)) with n2.
  replace (eb - (ex + n + n2)) with (D - n - n2) by (unfold D; lia).
  assert (HpD2 : 0 < 2 ^ (D - n - n2)) by (apply pow2_pos; lia).
  destruct (q' / 2 ^ n2) as [|p|p] eqn:Em.
  - split; [reflexivity|]. nia.
  - replace (ex + n + n2 <=? 971) with true by (symmetry; apply Z.leb_le; unfold D in *; lia).
    replace (eb - (ex + n + n2)) with (D - n - n2) by (unfold D; lia).
    repeat split; try lia.
  - lia.
Qed.


Lemma iter_xO_spec m d : Zpos (Pos.iter xO m d) = Zpos m * 2 ^ Zpos d.
Proof.
  induction d as [|d IH] using Pos.peano_ind.
  - simpl. lia.
  - rewrite Pos.iter_succ, Pos2Z.inj_xO, IH, Pos2Z.inj_succ, Z.pow_succ_r by lia. ring.
Qed.

Lemma shl_align_spec m e e' :
  let '(m', e'') := shl_align m e e' in
  e'' = Z.min e e' /\ Zpos m' = Zpos m * 2 ^ (e - e'').
Proof.
  unfold shl_align. destruct (e' - e) as [|p|p] eqn:E.
  - split; [lia|]. replace (e - e) with 0 by lia. simpl; lia.
  - split; [lia|]. replace (e - e) with 0 by lia. simpl; lia.
  - split; [lia|]. rewrite iter_xO_spec. f_equal. f_equal. lia.
Qed.

(** The sum of two positive numbers is the rounding of the exact sum. *)
Lemma add_between (mx my : positive) (ex ey a b eb : Z) :
  0 <= a -> 0 < b < 2 ^ 53 -> -1074 <= eb <= 971 -> ex <= eb -> ey <= eb ->
  (let E := Z.min ex ey in
   a * 2 ^ (eb - E) <= Zpos mx * 2 ^ (ex - E) + Zpos my * 2 ^ (ey - E)
   <= b * 2 ^ (eb - E)) ->
  match B64.add (S754_finite false mx ex) (S754_finite false my ey) with
  | S754_zero sgn => sgn = false /\ a = 0
  | S754_finite sgn m e =>
      sgn = false /\ e <= eb /\ Zpos m < 2 ^ 53
      /\ a * 2 ^ (eb - e) <= Zpos m <= b * 2 ^ (eb - e)
  | _ => False
  end.
Proof.
  intros Ha Hb Heb Hex Hey Hval. cbv zeta in Hval.
  unfold B64.add, SFadd. cbv zeta. set (E := Z.min ex ey) in *.
  pose proof (shl_align_spec mx ex E) as Hx.
  pose proof (shl_align_spec my ey E) as Hy.
  destruct (shl_align mx ex E) as [mx' ex'], (shl_align my ey E) as [my' ey'].
  destruct Hx as [Hex' Hmx'], Hy as [Hey' Hmy'].
  assert (Ex : ex' = E) by (unfold E in *; lia).
  assert (Ey : ey' = E) by (unfold E in *; lia).
  rewrite Ex in Hmx'. rewrite Ey in Hmy'. clear Hex' Hey'. subst ex' ey'.
  simpl fst. simpl cond_Zopp.
  change (Z.pos mx' + Z.pos my') with (Z.pos (mx' + my')).
  unfold binary_normalize, binary_round.
  set (E2 := fexp B64.prec B64.emax (Z.pos (digits2_pos (mx' + my')) + E)).
  pose proof (shl_align_spec (mx' + my') E E2) as Hz.
  destruct (shl_align (mx' + my') E E2) as [mz ez]. destruct Hz as [Hez Hmz].
  assert (HE : E <= eb) by (unfold E; lia).
  assert (Hez' : ez <= E) by lia.
  assert (Hp : 0 < 2 ^ (E - ez)) by (apply pow2_pos; lia).
  assert (Epow : forall c, c * 2 ^ (eb - ez) = c * 2 ^ (eb - E) * 2 ^ (E - ez)).
  { intros c. rewrite <- Z.mul_assoc, <- pow2_add by lia. do 2 f_equal. lia. }
  assert (Hv : a * 2 ^ (eb - ez) <= Z.pos mz <= b * 2 ^ (eb - ez)).
  { rewrite !Epow, Hmz, Pos2Z.inj_add, Hmx', Hmy'.
    split; apply Z.mul_le_mono_nonneg_r; lia. }
  pose proof (round_between mz ez a b eb Ha Hb Heb ltac:(lia) Hv) as HR.
  change B64.prec with 53. change B64.emax with 1024.
  destruct (binary_round_aux 53 1024 false (Z.pos mz) ez loc_Exact) as [s|s| |s m e];
    try exact HR.
  destruct HR as (? & ? & ? & ?). repeat split; first [assumption | lia].
Qed.




Lemma below_one_mantissa (m : positive) (e : Z) :
  B64.valid (S754_finite false m e) = true ->
  B64.ltb (S754_finite false m e) B64.one = true ->
  e <= -53 /\ Zpos m < 2 ^ 53.
Proof.
  unfold B64.valid, valid_binary, bounded, canonical_mantissa, B64.ltb, SFltb, B64.one, SFcompare.
  intros Hv Hlt. apply andb_prop in Hv as [Hc _]. apply Z.eqb_eq in Hc.
  change (fexp B64.prec B64.emax) with fexp64 in Hc. rewrite fexp64_eq in Hc.
  pose proof (digits2_bounds m) as [Hlo Hhi].
  
  destruct (Z.compare_spec e (-52)) as [->|Hl|Hg]; try discriminate.
  -  assert (Ed : Z.pos (digits2_pos m) = 53) by lia.
    rewrite Ed in Hlo. 
    destruct (Pos.compare_cont Eq m 4503599627370496) eqn:Ec; try discriminate.
    
    assert (Hm : (m < 4503599627370496)%positive) by exact Ec.
    
    change (2 ^ (53 - 1)) with 4503599627370496 in Hlo. apply Pos2Z.pos_lt_pos in Hm. exfalso. clear - Hlo Hm. lia.
  -  split; [clear - Hl; lia|]. 
    assert (Z.pos (digits2_pos m) <= 53) by (clear - Hc Hl; lia). 
    assert (2 ^ Z.pos (digits2_pos m) <= 2 ^ 53) by (apply Z.pow_le_mono_r; lia).  clear - H0 Hhi. lia.
Qed.

Lemma pos_le_compare (a b : positive) :
  Zpos a <= Zpos b -> Pos.compare_cont Eq a b <> Gt.
Proof. intros H. change ((a ?= b)%positive <> Gt). apply Pos.compare_le_iff. lia. Qed.

(** [50 * u] for [u] in the unit interval, then [75 + _]. *)
Lemma uniform_range (u : float) :
  in_unit_interval u = true ->
  B64.leb f75 (shift_scale f75 f50 u) = true
  /\ B64.leb (shift_scale f75 f50 u) f125 = true.
Proof.
  unfold in_unit_interval. intros H.
  apply andb_prop in H as [H Hlt]. apply andb_prop in H as [Hv H0].
  destruct u as [s|s| |s m e].
  - destruct s; split; reflexivity.
  - destruct s; discriminate.
  - discriminate.
  - destruct s; [discriminate|].
    destruct (below_one_mantissa m e Hv Hlt) as [He Hm].
    unfold shift_scale.
    assert (Hmul :
      match B64.mul (S754_finite false m e) f50 with
      | S754_zero sgn => sgn = false /\ 0 = 0
      | S754_finite sgn my ey =>
          sgn = false /\ e + -47 <= ey <= -47 /\ Zpos my < 2 ^ 53
          /\ 0 * 2 ^ (-47 - ey) <= Zpos my <= 7036874417766400 * 2 ^ (-47 - ey)
      | _ => False
      end).
    { unfold B64.mul, SFmul, f50. simpl xorb.
      apply (round_between (m * 7036874417766400) (e + -47) 0 7036874417766400 (-47)); try lia.
      rewrite Pos2Z.inj_mul. replace (-47 - (e + -47)) with (- e) by lia.
      assert (2 ^ 53 <= 2 ^ (- e)) by (apply Z.pow_le_mono_r; lia). nia. }
    destruct (B64.mul (S754_finite false m e) f50) as [sy|sy| |sy my ey]; try contradiction.
    + destruct Hmul as [-> _]. split; reflexivity.
    + destruct Hmul as (-> & Hey & Hmy & _ & Hup).
      assert (Hadd := add_between my 5277655813324800 ey (-46)
                        5277655813324800 8796093022208000 (-46)).
      unfold f75.
      destruct (B64.add (S754_finite false my ey) (S754_finite false 5277655813324800 (-46)))
        as [sz|sz| |sz mz ez].
      all: lazymatch type of Hadd with _ -> _ -> _ -> _ -> _ -> ?P -> _ =>
             assert (Hval : P) end.
      all: try (cbv zeta; rewrite Z.min_l by lia;
                replace (-46 - ey) with (-47 - ey + 1) by lia;
                rewrite (pow2_add (-47 - ey) 1) by lia;
                replace (ey - ey) with 0 by lia;
                assert (0 < 2 ^ (-47 - ey)) by (apply pow2_pos; lia);
                change (2 ^ 1) with 2; change (2 ^ 0) with 1; lia).
      all: specialize (Hadd ltac:(lia) ltac:(lia) ltac:(lia) ltac:(lia) ltac:(lia) Hval);
           try contradiction.
      * destruct Hadd as [_ Habs]. lia.
      * destruct Hadd as (-> & Hez & Hmz & Hlo & Hhi).
        assert (ez = -46).
        { destruct (Z.eq_dec ez (-46)) as [|Hne]; [assumption|exfalso].
          assert (2 ^ 1 <= 2 ^ (-46 - ez)) by (apply Z.pow_le_mono_r; lia).
          change (2 ^ 1) with 2 in *. lia. }
        subst ez. change (2 ^ (-46 - -46)) with 1 in *.
        unfold B64.leb, SFleb, SFcompare, f125. simpl Z.compare.
        split.
        -- pose proof (pos_le_compare 5277655813324800 mz ltac:(lia)).
           destruct (Pos.compare_cont Eq 5277655813324800 mz); congruence.
        -- pose proof (pos_le_compare mz 8796093022208000 ltac:(lia)).
           destruct (Pos.compare_cont Eq mz 8796093022208000); congruence.
Qed.

(** Rounding a positive mantissa never yields a negative number or NaN. *)
Lemma round_sign (m : positive) (e : Z) :
  match binary_round_aux 53 1024 false (Zpos m) e loc_Exact with
  | S754_zero s | S754_infinity s | S754_finite s _ _ => s = false
  | S754_nan => False
  end.
Proof.
  destruct (binary_round_aux_spec (Zpos m) e) as (q' & Hq & _ & ->); [lia|].
  cbv zeta.
  assert (0 <= Zpos m / 2 ^ drop (Zpos m) e)
    by (apply Z.div_pos; [lia | apply pow2_pos, drop_nonneg]).
  assert (0 <= q' / 2 ^ drop q' (e + drop (Zpos m) e))
    by (apply Z.div_pos; [lia | apply pow2_pos, drop_nonneg]).
  destruct (q' / 2 ^ drop q' (e + drop (Zpos m) e)); [reflexivity | | lia].
  destruct (_ <=? 971); reflexivity.
Qed.

Lemma expon_nonneg (z : float) :
  B64.leb f0 z = true -> B64.leb f0 (shift_scale f0 f100 z) = true.
Proof.
  intros H. destruct z as [s|s| |s m e].
  - destruct s; reflexivity.
  - destruct s; [discriminate | reflexivity].
  - discriminate.
  - destruct s; [discriminate|].
    unfold shift_scale, B64.mul, SFmul, f100. simpl xorb.
    pose proof (round_sign (m * 7036874417766400) (e + -46)) as Hs.
    change B64.prec with 53. change B64.emax with 1024.
    destruct (binary_round_aux 53 1024 false (Z.pos (m * 7036874417766400)) (e + -46) loc_Exact)
      as [sy|sy| |sy my ey]; try contradiction; subst sy; reflexivity.
Qed.

End Binary64Facts.

(** * Facts about text *)

Section TextFacts.

Local Arguments String.append !_ _ /.

Lemma append_nil_r (s : string) : s +:+ EmptyString = s.
Proof. induction s as [|c s IH]; simpl; congruence. Qed.

Lemma append_assoc (a b c : string) : (a +:+ b) +:+ c = a +:+ (b +:+ c).
Proof. induction a as [|x a IH]; simpl; congruence. Qed.

Lemma count_lines_app (a b : string) :
  count_lines (a +:+ b) = count_lines a + count_lines b.
Proof. induction a as [|c a IH]; simpl; [reflexivity | rewrite IH; lia]. Qed.

Lemma lines_from_line (a : string) : forall cur rest,
  count_lines a = 0 ->
  lines_from cur (a +:+ String LF rest) = (cur +:+ a) :: lines_from EmptyString rest.
Proof.
  induction a as [|c a IH]; intros cur rest H; simpl.
  - rewrite append_nil_r. reflexivity.
  - simpl in H. destruct (Ascii.eqb c LF); [discriminate|].
    rewrite IH by exact H. rewrite append_assoc. reflexivity.
Qed.

Lemma is_digit_not_LF (c : ascii) : is_digit c = true -> Ascii.eqb c LF = false.
Proof.
  intros H. destruct (Ascii.eqb_spec c LF) as [->|]; [discriminate | reflexivity].
Qed.

Lemma all_digits_no_newline (s : string) :
  all_digits s = true -> count_lines s = 0.
Proof.
  induction s as [|c s IH]; simpl; [reflexivity|].
  intros H. apply andb_prop in H as [Hc Hs].
  rewrite (is_digit_not_LF c Hc), IH by exact Hs. reflexivity.
Qed.

Lemma nonempty_digits_all (s : string) :
  nonempty_digits s = true -> all_digits s = true.
Proof. destruct s; [discriminate | exact id]. Qed.

Lemma split_at_spec (c : ascii) (s : string) :
  match split_at c s with
  | (a, None) => s = a
  | (a, Some b) => s = a +:+ String c b
  end.
Proof.
  induction s as [|d s IH]; simpl; [reflexivity|].
  destruct (Ascii.eqb_spec d c) as [->|]; [reflexivity|].
  destruct (split_at c s) as [a [b|]]; simpl; congruence.
Qed.

Lemma strip_sign_lines (s : string) :
  count_lines (strip_sign s) = count_lines s.
Proof.
  destruct s as [|c s]; [reflexivity|].
  destruct c as [[] [] [] [] [] [] [] []]; reflexivity.
Qed.

(** A float literal has no line terminator inside. *)
Lemma literal_no_newline (s : string) :
  is_float_literal s = true -> count_lines s = 0.
Proof.
  unfold is_float_literal. rewrite <- (strip_sign_lines s).
  generalize (strip_sign s) as body. clear s. intros body.
  destruct (String.eqb_spec body "inf") as [->|_]; [reflexivity|].
  destruct (String.eqb_spec body "nan") as [->|_]; [reflexivity|].
  pose proof (split_at_spec "e" body) as He.
  destruct (split_at "e" body) as [mant expo].
  pose proof (split_at_spec "." mant) as Hd.
  destruct (split_at "." mant) as [ip fp].
  intros H. apply andb_prop in H as [H Hx]. apply andb_prop in H as [Hi Hf].
  apply nonempty_digits_all, all_digits_no_newline in Hi.
  assert (Hmant : count_lines mant = 0).
  { destruct fp as [f|]; subst mant; [|exact Hi].
    rewrite count_lines_app. simpl. rewrite Hi, (all_digits_no_newline f Hf). reflexivity. }
  destruct expo as [x|]; subst body; [|exact Hmant].
  rewrite count_lines_app. simpl. rewrite Hmant, <- (strip_sign_lines x).
  rewrite (all_digits_no_newline _ (nonempty_digits_all _ Hx)). reflexivity.
Qed.

(** The exact conversion yields float literals. *)

Lemma digit_char_is_digit (n : N) : is_digit (digit_char n) = true.
Proof.
  unfold is_digit, digit_char, nat_of_ascii.
  assert (Hk : (n mod 10 < 10)%N) by (apply N.mod_lt; discriminate).
  rewrite N_ascii_embedding by lia. cbv zeta.
  generalize dependent (n mod 10)%N. intros k Hk.
  apply andb_true_intro. split; apply Nat.leb_le; lia.
Qed.

Lemma decimal_go_digits (fuel : nat) : forall n acc,
  all_digits acc = true -> all_digits (decimal_go fuel n acc) = true.
Proof.
  induction fuel as [|fuel IH]; intros n acc H; simpl; [exact H|].
  assert (H' : all_digits (String (digit_char n) acc) = true)
    by (simpl; rewrite digit_char_is_digit; exact H).
  destruct (n / 10 =? 0)%N; [exact H' | apply IH, H'].
Qed.

Lemma decimal_go_nonempty (fuel : nat) : forall n acc,
  acc <> EmptyString -> decimal_go fuel n acc <> EmptyString.
Proof.
  induction fuel as [|fuel IH]; intros n acc H; simpl; [exact H|].
  destruct (n / 10 =? 0)%N; [discriminate | apply IH; discriminate].
Qed.

Lemma decimal_digits (n : N) : nonempty_digits (decimal n) = true.
Proof.
  unfold decimal.
  pose proof (decimal_go_digits (S (N.to_nat (N.log2 n))) n EmptyString eq_refl) as Hd.
  assert (Hn : decimal_go (S (N.to_nat (N.log2 n))) n EmptyString <> EmptyString).
  { simpl. destruct (n / 10 =? 0)%N; [discriminate | apply decimal_go_nonempty; discriminate]. }
  destruct (decimal_go _ n EmptyString); [contradiction | exact Hd].
Qed.

Lemma split_at_digits (c : ascii) (D : string) : forall rest,
  all_digits D = true -> is_digit c = false ->
  split_at c (D +:+ rest)
  = (D +:+ fst (split_at c rest), snd (split_at c rest)).
Proof.
  induction D as [|d D IH]; intros rest HD Hc; simpl.
  - destruct (split_at c rest); reflexivity.
  - cbn [all_digits] in HD. apply andb_prop in HD as [Hd HD].
    destruct (Ascii.eqb_spec d c) as [->|]; [congruence|].
    rewrite IH by assumption. reflexivity.
Qed.

Lemma digits_head (D rest : string) :
  nonempty_digits D = true ->
  strip_sign (D +:+ rest) = D +:+ rest
  /\ String.eqb (D +:+ rest) "inf" = false
  /\ String.eqb (D +:+ rest) "nan" = false.
Proof.
  destruct D as [|c D]; [discriminate|]. simpl. intros H.
  apply andb_prop in H as [Hc _].
  destruct c as [[] [] [] [] [] [] [] []]; try discriminate Hc; repeat split; reflexivity.
Qed.

Lemma literal_dot (D F : string) :
  nonempty_digits D = true -> all_digits F = true ->
  is_float_literal (D +:+ String "." F) = true.
Proof.
  intros HD HF. unfold is_float_literal.
  destruct (digits_head D (String "." F) HD) as (-> & -> & ->).
  pose proof (nonempty_digits_all D HD) as HD'.
  rewrite (split_at_digits "e" D) by (exact HD' || reflexivity).
  assert (He : split_at "e" (String "." F) = (String "." F, None)).
  { pose proof (split_at_digits "e" F EmptyString HF eq_refl) as H.
    rewrite !append_nil_r in H. simpl in *. rewrite H. reflexivity. }
  rewrite He. simpl fst. simpl snd.
  rewrite (split_at_digits "." D) by (exact HD' || reflexivity).
  simpl. rewrite append_nil_r, HD, HF. reflexivity.
Qed.

Lemma literal_exp (D K : string) :
  nonempty_digits D = true -> nonempty_digits K = true ->
  is_float_literal (D +:+ String "e" (String "-" K)) = true.
Proof.
  intros HD HK. unfold is_float_literal.
  destruct (digits_head D (String "e" (String "-" K)) HD) as (-> & -> & ->).
  pose proof (nonempty_digits_all D HD) as HD'.
  rewrite (split_at_digits "e" D) by (exact HD' || reflexivity).
  simpl fst. simpl snd. rewrite append_nil_r.
  pose proof (split_at_digits "." D EmptyString HD' eq_refl) as H.
  rewrite !append_nil_r in H. simpl in H. rewrite H, HD. simpl.
  exact HK.
Qed.

Lemma signed_literal (s : bool) (D rest : string) :
  nonempty_digits D = true ->
  is_float_literal (D +:+ rest) = true ->
  is_float_literal (sign_str s +:+ (D +:+ rest)) = true.
Proof.
  intros HD H. destruct s; [|exact H].
  unfold is_float_literal in *. simpl strip_sign.
  destruct (digits_head D rest HD) as (Hs & _). rewrite Hs in H. exact H.
Qed.

Lemma exact_str_literal (x : float) : is_float_literal (exact_str x) = true.
Proof.
  destruct x as [s|s| |s m e]; try (destruct s; reflexivity); [reflexivity|].
  unfold exact_str, exact_finite. destruct (reduce m e) as [m' e'].
  destruct (0 <=? e')%Z.
  - apply signed_literal; [apply decimal_digits|].
    apply literal_dot; [apply decimal_digits | reflexivity].
  - apply signed_literal; [apply decimal_digits|].
    apply literal_exp; apply decimal_digits.
Qed.

End TextFacts.

(** * Facts about the script *)

Section ScriptFacts.

Context {RNG : Type} `{R : Runtime RNG}.

Local Arguments String.append !_ _ /.

Lemma draws_length (d : dist) (size : nat) : forall r,
  length (fst (draws d size r)) = size.
Proof.
  induction size as [|n IH]; intros r; simpl; [reflexivity|].
  destruct (sampler d r) as [z r']. specialize (IH r').
  destruct (draws d n r') as [zs r'']. simpl in *. congruence.
Qed.

Lemma generated_length d loc scale size r :
  length (generated d loc scale size r) = size.
Proof. unfold generated. rewrite length_map. apply draws_length. Qed.

Lemma rvs_eq d loc scale size (w : world RNG) :
  rvs d loc scale size w
  = (Ok (generated d loc scale size (random_state w)),
     World (files w) (handles w) (clock w)
           (rng_after d size (random_state w))
           (trace w ++ [EvRvs d loc scale size])).
Proof.
  unfold rvs, generated, rng_after.
  destruct (draws d size (random_state w)); reflexivity.
Qed.

Lemma no_faults_weaken (c n c' n' : nat) :
  c <= c' -> c' + n' <= c + n -> no_faults c n -> no_faults c' n'.
Proof. intros H1 H2 H k Hk. apply H. lia. Qed.

Lemma no_faults_app (c n1 n2 : nat) :
  no_faults c n1 -> no_faults (c + n1) n2 -> no_faults c (n1 + n2).
Proof.
  intros H1 H2 k Hk. destruct (decide (k < c + n1)); [apply H1 | apply H2]; lia.
Qed.

Lemma no_faults_two (c : nat) :
  faults c = false -> faults (S c) = false -> no_faults c 2.
Proof.
  intros H0 H1 k Hk. destruct (decide (k = c)) as [->|]; [exact H0|].
  replace k with (S c) by lia. exact H1.
Qed.

(** The loop of a block only fills the buffer of its file object. *)
Lemma write_all (f : string) (vs : list float) :
  forall (w : world RNG) (m : gmap string string) (c0 : string),
  handles w = <[f := c0]> m ->
  for_each vs (fun n => write f (format_line n)) w
  = (Ok tt,
     World (files w) (<[f := c0 +:+ written vs]> m) (clock w)
           (random_state w) (trace w ++ writes f vs)).
Proof.
  induction vs as [|v vs IH]; intros w m c0 Hh.
  - destruct w as [fl hs c r t]. simpl in *. subst hs.
    unfold ret, written. simpl. rewrite append_nil_r, app_nil_r. reflexivity.
  - cbn [for_each]. unfold bind, write at 1.
    rewrite (IH _ m (c0 +:+ format_line v)).
    + cbn [files handles clock random_state trace]. unfold written, writes.
      cbn [map concat_str]. rewrite append_assoc, <- app_assoc. reflexivity.
    + cbn [handles]. rewrite Hh.
      apply (alter_insert_eq m f (fun b => b +:+ format_line v) c0).
Qed.

(** What a block does up to its closing. *)
Lemma block_body path d loc scale size (w : world RNG) :
  faults (clock w) = false ->
  sample_block path d loc scale size w
  = let vs := generated d loc scale size (random_state w) in
    match close path
            (World (<[path := EmptyString]> (files w))
                   (<[path := written vs]> (handles w))
                   (S (clock w))
                   (rng_after d size (random_state w))
                   (trace w ++ EvOpen path :: EvRvs d loc scale size
                                 :: writes path vs)) with
    | (Ok _, w') => (Ok tt, w')
    | (Raise e, w') => (Raise e, w')
    end.
Proof.
  intros Hopen. unfold sample_block, with_open, open_w. rewrite Hopen.
  unfold bind. rewrite rvs_eq. cbn [files handles clock random_state trace].
  rewrite (write_all path _ _ (handles w) EmptyString) by reflexivity.
  cbn [files handles clock random_state trace]. cbv zeta.
  rewrite <- !app_assoc. reflexivity.
Qed.

Lemma block_ok path d loc scale size (w : world RNG) :
  faults (clock w) = false ->
  faults (S (clock w)) = false ->
  sample_block path d loc scale size w
  = (Ok tt, block_done path d loc scale size w).
Proof.
  intros Hopen Hclose. rewrite block_body by exact Hopen. cbv zeta.
  unfold close. cbn [files handles clock random_state trace].
  rewrite Hclose, lookup_insert_eq. cbn [default].
  unfold block_done, block_events.
  rewrite (alter_insert_eq (files w) path (fun c => c +:+ _) EmptyString).
  rewrite delete_insert_eq, <- app_assoc. reflexivity.
Qed.

Lemma block_open_fail path d loc scale size (w : world RNG) :
  faults (clock w) = true ->
  sample_block path d loc scale size w
  = (Raise (OSError path), block_open_failed path w).
Proof.
  intros Hf. unfold sample_block, with_open, open_w. rewrite Hf. reflexivity.
Qed.

Lemma block_flush_fail path d loc scale size (w : world RNG) :
  faults (clock w) = false ->
  faults (S (clock w)) = true ->
  sample_block path d loc scale size w
  = (Raise (OSError path), block_flush_failed path d loc scale size w).
Proof.
  intros Hopen Hclose. rewrite block_body by exact Hopen. cbv zeta.
  unfold close. cbn [files handles clock random_state trace].
  rewrite Hclose, lookup_insert_eq. cbn [default].
  unfold block_flush_failed, failed_events.
  rewrite (alter_insert_eq (files w) path (fun c => c +:+ _) EmptyString).
  rewrite delete_insert_eq, <- app_assoc. reflexivity.
Qed.

(** A block either completes or fails, and its result tells which. *)
Lemma block_cases path d loc scale size (w : world RNG) :
  (no_faults (clock w) 2
   /\ sample_block path d loc scale size w
      = (Ok tt, block_done path d loc scale size w))
  \/ (exists w',
        block_fails path d loc scale size w w'
        /\ sample_block path d loc scale size w = (Raise (OSError path), w')).
Proof.
  destruct (faults (clock w)) eqn:Hopen.
  - right. exists (block_open_failed path w).
    split; [left; auto | apply block_open_fail, Hopen].
  - destruct (faults (S (clock w))) eqn:Hclose.
    + right. exists (block_flush_failed path d loc scale size w).
      split; [right; auto | apply block_flush_fail; assumption].
    + left. split; [apply no_faults_two; assumption | apply block_ok; assumption].
Qed.

Lemma clock_block_done path d loc scale size (w : world RNG) :
  clock (block_done path d loc scale size w) = clock w + 2.
Proof. unfold block_done. cbn [clock]. lia. Qed.

(** The four ways in which the script ends. *)
Lemma gensamples_cases (w : world RNG) :
  (no_faults (clock w) 6 /\ gensamples w = (Ok tt, done3 w))
  \/ (exists w',
        block_fails normal_txt Norm f100 f10 100 w w'
        /\ gensamples w = (Raise (OSError normal_txt), w'))
  \/ (exists w',
        no_faults (clock w) 2
        /\ block_fails uniform_txt Uniform f75 f50 100 (done1 w) w'
        /\ gensamples w = (Raise (OSError uniform_txt), w'))
  \/ (exists w',
        no_faults (clock w) 4
        /\ block_fails exponential_txt Expon f0 f100 100 (done2 w) w'
        /\ gensamples w = (Raise (OSError exponential_txt), w')).
Proof.
  unfold gensamples, bind.
  destruct (block_cases normal_txt Norm f100 f10 100 w) as [[N1 E1] | (w' & F & E)];
    [rewrite E1 | right; left; exists w'; rewrite E; auto].
  fold (done1 w).
  destruct (block_cases uniform_txt Uniform f75 f50 100 (done1 w))
    as [[N2 E2] | (w' & F & E)];
    [rewrite E2 | right; right; left; exists w'; rewrite E; auto].
  fold (done2 w).
  assert (C1 : clock (done1 w) = clock w + 2) by apply clock_block_done.
  assert (C2 : clock (done2 w) = clock w + 4)
    by (unfold done2; rewrite clock_block_done, C1; lia).
  assert (N12 : no_faults (clock w) 4).
  { change 4 with (2 + 2). apply no_faults_app; [exact N1|]. rewrite <- C1. exact N2. }
  destruct (block_cases exponential_txt Expon f0 f100 100 (done2 w))
    as [[N3 E3] | (w' & F & E)];
    [rewrite E3 | right; right; right; exists w'; rewrite E; auto].
  left. split; [|reflexivity].
  change 6 with (4 + 2). apply no_faults_app; [exact N12|]. rewrite <- C2. exact N3.
Qed.

(** A run in which no call raises succeeds. *)
Lemma run_succeeds (w : world RNG) :
  no_faults (clock w) 6 -> gensamples w = (Ok tt, done3 w).
Proof.
  intros N. unfold gensamples, bind.
  rewrite (block_ok normal_txt) by (apply N; lia).
  fold (done1 w).
  rewrite (block_ok uniform_txt)
    by (apply N; unfold done1; rewrite clock_block_done; lia).
  fold (done2 w).
  rewrite (block_ok exponential_txt)
    by (apply N; unfold done2, done1; rewrite !clock_block_done; lia).
  reflexivity.
Qed.

Lemma success_done (w : world RNG) :
  fst (gensamples w) = Ok tt ->
  gensamples w = (Ok tt, done3 w) /\ no_faults (clock w) 6.
Proof.
  intros H.
  destruct (gensamples_cases w)
    as [[N E] | [(w' & _ & E) | [(w' & _ & _ & E) | (w' & _ & _ & E)]]];
    rewrite E in H; try discriminate H.
  auto.
Qed.

Lemma paths_distinct :
  normal_txt <> uniform_txt /\ normal_txt <> exponential_txt
  /\ uniform_txt <> exponential_txt.
Proof. repeat split; discriminate. Qed.

(** The random states at which the three blocks draw. *)
Lemma files_done3 (w : world RNG) :
  let r0 := random_state w in
  let r1 := rng_after Norm 100 r0 in
  let r2 := rng_after Uniform 100 r1 in
  files (done3 w)
  = <[exponential_txt := written (generated Expon f0 f100 100 r2)]>
      (<[uniform_txt := written (generated Uniform f75 f50 100 r1)]>
         (<[normal_txt := written (generated Norm f100 f10 100 r0)]> (files w))).
Proof. reflexivity. Qed.

Lemma count_lines_written (vs : list float) :
  (forall v, is_float_literal (float_str v) = true) ->
  count_lines (written vs) = length vs.
Proof.
  intros Hlit. unfold written. induction vs as [|v vs IH]; [reflexivity|].
  cbn [map concat_str length]. unfold format_line at 1.
  rewrite !count_lines_app, IH, (literal_no_newline _ (Hlit v)). reflexivity.
Qed.

Lemma lines_written (vs : list float) :
  (forall v, is_float_literal (float_str v) = true) ->
  lines (written vs) = map float_str vs.
Proof.
  intros Hlit. unfold written, lines. induction vs as [|v vs IH]; [reflexivity|].
  cbn [map concat_str]. unfold format_line at 1, newline.
  rewrite append_assoc. cbn [String.append].
  rewrite lines_from_line by apply literal_no_newline, Hlit.
  rewrite IH. reflexivity.
Qed.

Lemma stage_writes (p : string) (vs : list float) :
  Forall (fun e => stage e = stage_of_path p) (writes p vs).
Proof. unfold writes. apply Forall_map, Forall_true. reflexivity. Qed.

Lemma same_stage_in_order (n : nat) (evs : list event) :
  Forall (fun e => stage e = n) evs -> in_script_order evs.
Proof.
  unfold in_script_order. induction 1 as [|e evs He Hevs IH]; constructor; [exact IH|].
  eapply Forall_impl; [exact Hevs|]. simpl. intros e' He'. lia.
Qed.

Lemma staged_in_order (l0 l1 l2 : list event) :
  Forall (fun e => stage e = 0) l0 ->
  Forall (fun e => stage e = 1) l1 ->
  Forall (fun e => stage e = 2) l2 ->
  in_script_order (l0 ++ l1 ++ l2).
Proof.
  intros H0 H1 H2. unfold in_script_order.
  apply StronglySorted_app_2; [| apply (same_stage_in_order 0 _ H0) |].
  - intros a b Ha Hb. rewrite Forall_forall in H0. rewrite (H0 a Ha). lia.
  - apply StronglySorted_app_2;
      [| apply (same_stage_in_order 1 _ H1) | apply (same_stage_in_order 2 _ H2)].
    intros a b Ha Hb. rewrite Forall_forall in H1, H2.
    rewrite (H1 a Ha), (H2 b Hb). lia.
Qed.

Lemma stage_block_events p d loc scale size vs :
  stage_of_dist d = stage_of_path p ->
  Forall (fun e => stage e = stage_of_path p) (block_events p d loc scale size vs).
Proof.
  intros Hd. unfold block_events. repeat constructor; [exact Hd|].
  apply Forall_app. split; [apply stage_writes | repeat constructor].
Qed.

Lemma stage_block_fails p d loc scale size (w w' : world RNG) :
  stage_of_dist d = stage_of_path p ->
  block_fails p d loc scale size w w' ->
  exists evs : list event,
    trace w' = (trace w ++ evs)%list
    /\ Forall (fun e => stage e = stage_of_path p) evs.
Proof.
  intros Hd [[_ ->] | (_ & _ & ->)].
  - exists [EvOpenFail p]. split; [reflexivity | repeat constructor].
  - eexists. split; [reflexivity|]. unfold failed_events.
    repeat constructor; [exact Hd|].
    apply Forall_app. split; [apply stage_writes | repeat constructor].
Qed.

Lemma rvs_calls_writes p vs rest :
  rvs_calls (writes p vs ++ rest) = rvs_calls rest.
Proof.
  unfold rvs_calls, writes. rewrite omap_app.
  induction vs as [|v vs IH]; [reflexivity | exact IH].
Qed.

Lemma rvs_calls_block p d loc scale size vs :
  rvs_calls (block_events p d loc scale size vs) = [(d, loc, scale, size)].
Proof.
  unfold block_events.
  change (rvs_calls (EvOpen p :: EvRvs d loc scale size
                       :: writes p vs ++ [EvFlush p (written vs); EvClose p]))
    with ((d, loc, scale, size)
            :: rvs_calls (writes p vs ++ [EvFlush p (written vs); EvClose p])).
  rewrite rvs_calls_writes. reflexivity.
Qed.

Lemma files_block_fails p d loc scale size (w w' : world RNG) (q : string) :
  q <> p -> block_fails p d loc scale size w w' ->
  files w' !! q = files w !! q.
Proof.
  intros Hq [[_ ->] | (_ & _ & ->)]; [reflexivity|].
  unfold block_flush_failed. cbn [files]. apply lookup_insert_ne. congruence.
Qed.

Lemma handles_block_fails p d loc scale size (w w' : world RNG) :
  handles w = ∅ -> block_fails p d loc scale size w w' -> handles w' = ∅.
Proof.
  intros H [[_ ->] | (_ & _ & ->)]; [exact H|].
  unfold block_flush_failed. cbn [handles]. rewrite H. apply delete_empty.
Qed.

Lemma handles_block_done p d loc scale size (w : world RNG) :
  handles w = ∅ -> handles (block_done p d loc scale size w) = ∅.
Proof.
  intros H. unfold block_done. cbn [handles]. rewrite H. apply delete_empty.
Qed.

(** When a block fails, the failing call is the last fallible call made,
    and every call of the block before it went through. *)
Lemma clock_block_fails p d loc scale size (w w' : world RNG) :
  block_fails p d loc scale size w w' ->
  clock w < clock w' /\ faults (clock w' - 1) = true
  /\ no_faults (clock w) (clock w' - 1 - clock w).
Proof.
  intros [[Hf ->] | (Hopen & Hf & ->)].
  - unfold block_open_failed. cbn [clock]. split; [lia|]. split.
    + replace (S (clock w) - 1) with (clock w) by lia. exact Hf.
    + intros j Hj. lia.
  - unfold block_flush_failed. cbn [clock]. split; [lia|]. split.
    + replace (S (S (clock w)) - 1) with (S (clock w)) by lia. exact Hf.
    + intros j Hj. replace j with (clock w) by lia. exact Hopen.
Qed.

Lemma python_main_eq (w : world RNG) :
  python_main w = (exit_status (fst (gensamples w)), snd (gensamples w)).
Proof. unfold python_main. destruct (gensamples w); reflexivity. Qed.

Lemma done3_outputs (w : world RNG) :
  (forall v, is_float_literal (float_str v) = true) ->
  forall p, p ∈ outputs ->
  exists c, files (done3 w) !! p = Some c /\ count_lines c = 100.
Proof.
  intros Hlit p Hp. destruct paths_distinct as (H12 & H13 & H23).
  rewrite files_done3. cbv zeta. unfold outputs in Hp.
  rewrite !elem_of_cons, elem_of_nil in Hp.
  destruct Hp as [-> | [-> | [-> | []]]]; eexists; split.
  - rewrite lookup_insert_ne, lookup_insert_ne, lookup_insert_eq by congruence. reflexivity.
  - rewrite count_lines_written by exact Hlit. apply generated_length.
  - rewrite lookup_insert_ne, lookup_insert_eq by congruence. reflexivity.
  - rewrite count_lines_written by exact Hlit. apply generated_length.
  - rewrite lookup_insert_eq. reflexivity.
  - rewrite count_lines_written by exact Hlit. apply generated_length.
Qed.

(** A block behaves alike in two states of a process that differ only in
    the files on disk, and rewrites its own file alike. *)
Lemma block_files_irrelevant p d loc scale size (w v : world RNG)
    (fw fv : gmap string string) :
  same_process w v ->
  same_or_untouched fw fv (files w) (files v) ->
  fst (sample_block p d loc scale size v) = fst (sample_block p d loc scale size w)
  /\ same_process (snd (sample_block p d loc scale size w))
                  (snd (sample_block p d loc scale size v))
  /\ same_or_untouched fw fv
       (files (snd (sample_block p d loc scale size w)))
       (files (snd (sample_block p d loc scale size v))).
Proof.
  intros (Hh & Hc & Hr & Ht) Hu.
  assert (Hins : forall x : string,
             same_or_untouched fw fv (<[p := x]> (files w)) (<[p := x]> (files v))).
  { intros x q. destruct (decide (q = p)) as [->|Hq].
    - left. rewrite !lookup_insert_eq. reflexivity.
    - rewrite !lookup_insert_ne by congruence. apply Hu. }
  destruct (faults (clock w)) eqn:Hopen.
  - rewrite (block_open_fail p d loc scale size w) by exact Hopen.
    rewrite (block_open_fail p d loc scale size v) by (rewrite <- Hc; exact Hopen).
    unfold block_open_failed. cbn [fst snd files]. unfold same_process.
    cbn [handles clock random_state trace]. rewrite Hh, Hc, Hr, Ht.
    repeat split. exact Hu.
  - destruct (faults (S (clock w))) eqn:Hclose.
    + rewrite (block_flush_fail p d loc scale size w) by assumption.
      rewrite (block_flush_fail p d loc scale size v) by (rewrite <- Hc; assumption).
      unfold block_flush_failed. cbn [fst snd files]. unfold same_process.
      cbn [handles clock random_state trace]. rewrite Hh, Hc, Hr, Ht.
      repeat split. apply Hins.
    + rewrite (block_ok p d loc scale size w) by assumption.
      rewrite (block_ok p d loc scale size v) by (rewrite <- Hc; assumption).
      unfold block_done. cbn [fst snd files]. unfold same_process.
      cbn [handles clock random_state trace]. rewrite Hh, Hc, Hr, Ht.
      repeat split. apply Hins.
Qed.

(** ** The claims *)

(** C1.  A run that succeeds creates exactly three files, data/normal.txt,
    data/uniform.txt and data/exponential.txt: the file system afterwards
    is the one before with these three paths bound, and nothing else
    changed.  Each of the three holds exactly 100 line terminators, one per
    sample.  (The runtime's conversion of a float is taken to produce a
    float literal, which has no line terminator inside.) *)
Theorem three_files_of_100_lines (w : world RNG) :
  (forall v, is_float_literal (float_str v) = true) ->
  fst (gensamples w) = Ok tt ->
  exists c1 c2 c3 : string,
    files (snd (gensamples w))
    = <[exponential_txt := c3]>
        (<[uniform_txt := c2]> (<[normal_txt := c1]> (files w)))
    /\ dom (files (snd (gensamples w)))
       = {[normal_txt; uniform_txt; exponential_txt]} ∪ dom (files w)
    /\ count_lines c1 = 100 /\ count_lines c2 = 100 /\ count_lines c3 = 100.
Proof.
  intros Hlit Hok. destruct (success_done w Hok) as [E _]. rewrite E. cbn [snd].
  rewrite files_done3. cbv zeta. do 3 eexists. split; [reflexivity|]. split.
  - rewrite !dom_insert_L. set_solver.
  - rewrite !(count_lines_written _ Hlit), !generated_length. auto.
Qed.

(** C2.  After a run that succeeds, each output file holds exactly the
    concatenation, in generation order, of the runtime's conversion of each
    generated value followed by one line terminator; its lines are the
    conversions of the values, in order, and every line is a float
    literal. *)
Theorem contents_are_formatted_samples (w : world RNG) :
  (forall v, is_float_literal (float_str v) = true) ->
  fst (gensamples w) = Ok tt ->
  let r0 := random_state w in
  let r1 := rng_after Norm 100 r0 in
  let r2 := rng_after Uniform 100 r1 in
  let text (vs : list float) :=
    concat_str (map (fun v => float_str v +:+ newline) vs) in
  forall (p : string) (vs : list float),
    (p, vs) ∈ [(normal_txt, generated Norm f100 f10 100 r0);
               (uniform_txt, generated Uniform f75 f50 100 r1);
               (exponential_txt, generated Expon f0 f100 100 r2)] ->
    files (snd (gensamples w)) !! p = Some (text vs)
    /\ lines (text vs) = map float_str vs
    /\ Forall (fun l => is_float_literal l = true) (lines (text vs)).
Proof.
  intros Hlit Hok r0 r1 r2 text p vs Hin.
  change text with written.
  assert (Hl : lines (written vs) = map float_str vs) by apply lines_written, Hlit.
  split; [|split; [exact Hl|]].
  - destruct (success_done w Hok) as [E _]. rewrite E. cbn [snd].
    rewrite files_done3. cbv zeta. fold r0 r1 r2.
    destruct paths_distinct as (H12 & H13 & H23).
    rewrite !elem_of_cons, elem_of_nil in Hin.
    destruct Hin as [Hp | [Hp | [Hp | []]]]; injection Hp as -> ->.
    + rewrite lookup_insert_ne, lookup_insert_ne, lookup_insert_eq by congruence. reflexivity.
    + rewrite lookup_insert_ne, lookup_insert_eq by congruence. reflexivity.
    + rewrite lookup_insert_eq. reflexivity.
  - rewrite Hl. apply Forall_map, Forall_true. intros v. apply Hlit.
Qed.

(** C3.  In a run that succeeds, [rvs] is called three times, with the
    parameters of the script: the normal distribution with location 100.0
    and scale 10.0, the uniform one with location 75.0 and scale 50.0, the
    exponential one with location 0.0 and scale 100.0, each for 100
    values; and the values written are the standard variates of each
    distribution, multiplied by that scale and shifted by that location. *)
Theorem rvs_called_with_script_parameters (w : world RNG) :
  fst (gensamples w) = Ok tt ->
  let r0 := random_state w in
  let r1 := rng_after Norm 100 r0 in
  let r2 := rng_after Uniform 100 r1 in
  let affine (loc scale : Z) (z : float) :=
    B64.add (B64.mul z (B64.of_Z scale)) (B64.of_Z loc) in
  (exists evs : list event,
     trace (snd (gensamples w)) = (trace w ++ evs)%list
     /\ rvs_calls evs
        = [(Norm, B64.of_Z 100, B64.of_Z 10, 100);
           (Uniform, B64.of_Z 75, B64.of_Z 50, 100);
           (Expon, B64.of_Z 0, B64.of_Z 100, 100)])
  /\ files (snd (gensamples w)) !! normal_txt
     = Some (written (map (affine 100%Z 10%Z) (fst (draws Norm 100 r0))))
  /\ files (snd (gensamples w)) !! uniform_txt
     = Some (written (map (affine 75%Z 50%Z) (fst (draws Uniform 100 r1))))
  /\ files (snd (gensamples w)) !! exponential_txt
     = Some (written (map (affine 0%Z 100%Z) (fst (draws Expon 100 r2)))).
Proof.
  intros Hok r0 r1 r2 affine.
  destruct (success_done w Hok) as [E _]. rewrite E. cbn [snd].
  destruct paths_distinct as (H12 & H13 & H23). split.
  - eexists. split.
    + unfold done3, done2, done1, block_done. cbn [trace random_state].
      rewrite <- !app_assoc. reflexivity.
    + unfold rvs_calls. rewrite !omap_app. fold rvs_calls.
      rewrite !rvs_calls_block. reflexivity.
  - rewrite files_done3. cbv zeta. fold r0 r1 r2.
    rewrite lookup_insert_ne, lookup_insert_ne, lookup_insert_eq by congruence.
    rewrite lookup_insert_ne, lookup_insert_eq by congruence.
    rewrite lookup_insert_eq. repeat split; reflexivity.
Qed.

(** C4.  The run is the three blocks one after the other, for
    data/normal.txt, data/uniform.txt and data/exponential.txt.
    - The events of any run, with or without an I/O error, come in that
      order.  A run that succeeds performs, for each file in turn, the
      [open], the drawing of the samples, the 100 writes and the closing
      flush; a run that fails on one file has completed the blocks of the
      files before it and done nothing about the files after it.
    - A block starts only when the block before it has returned, and then
      the file of that block is complete on disk (it holds its 100 samples)
      and closed; the files written earlier stay as they are until the end.
    - No step reads a file or depends on what a file holds: started from
      another content of the file system, the run has the same result, the
      same events (with all the text they write), the same random state,
      and leaves every path either with the same content or untouched. *)
Theorem blocks_run_in_script_order (w : world RNG) :
  let r0 := random_state w in
  let r1 := rng_after Norm 100 r0 in
  let r2 := rng_after Uniform 100 r1 in
  let g0 := generated Norm f100 f10 100 r0 in
  let g1 := generated Uniform f75 f50 100 r1 in
  let g2 := generated Expon f0 f100 100 r2 in
  let B1 := block_events normal_txt Norm f100 f10 100 g0 in
  let B2 := block_events uniform_txt Uniform f75 f50 100 g1 in
  let B3 := block_events exponential_txt Expon f0 f100 100 g2 in
  (exists evs : list event,
     trace (snd (gensamples w)) = (trace w ++ evs)%list
     /\ in_script_order evs
     /\ match fst (gensamples w) with
        | Ok _ => evs = (B1 ++ B2 ++ B3)%list
        | Raise (OSError p) =>
            exists rest : list event,
              Forall (fun e => stage e = stage_of_path p) rest
              /\ ((p = normal_txt /\ evs = rest)
                  \/ (p = uniform_txt /\ evs = (B1 ++ rest)%list)
                  \/ (p = exponential_txt /\ evs = (B1 ++ B2 ++ rest)%list))
        end)
  /\ match sample_block normal_txt Norm f100 f10 100 w with
     | (Raise e, w1) => gensamples w = (Raise e, w1)
     | (Ok _, w1) =>
         files w1 !! normal_txt = Some (written g0)
         /\ handles w1 !! normal_txt = None
         /\ match sample_block uniform_txt Uniform f75 f50 100 w1 with
            | (Raise e, w2) =>
                gensamples w = (Raise e, w2)
                /\ files w2 !! normal_txt = Some (written g0)
            | (Ok _, w2) =>
                files w2 !! normal_txt = Some (written g0)
                /\ files w2 !! uniform_txt = Some (written g1)
                /\ handles w2 !! normal_txt = None
                /\ handles w2 !! uniform_txt = None
                /\ gensamples w = sample_block exponential_txt Expon f0 f100 100 w2
                /\ files (snd (gensamples w)) !! normal_txt = Some (written g0)
                /\ files (snd (gensamples w)) !! uniform_txt = Some (written g1)
            end
     end
  /\ forall v : world RNG,
       same_process w v ->
       fst (gensamples v) = fst (gensamples w)
       /\ same_process (snd (gensamples w)) (snd (gensamples v))
       /\ same_or_untouched (files w) (files v)
            (files (snd (gensamples w))) (files (snd (gensamples v))).
Proof.
  intros r0 r1 r2 g0 g1 g2 B1 B2 B3.
  destruct paths_distinct as (H12 & H13 & H23).
  assert (S1 : Forall (fun e => stage e = 0) B1)
    by exact (stage_block_events normal_txt Norm f100 f10 100 _ eq_refl).
  assert (S2 : Forall (fun e => stage e = 1) B2)
    by exact (stage_block_events uniform_txt Uniform f75 f50 100 _ eq_refl).
  assert (S3 : Forall (fun e => stage e = 2) B3)
    by exact (stage_block_events exponential_txt Expon f0 f100 100 _ eq_refl).
  assert (T1 : trace (done1 w) = (trace w ++ B1)%list) by reflexivity.
  assert (T2 : trace (done2 w) = (trace w ++ B1 ++ B2)%list).
  { unfold done2, block_done. cbn [trace]. rewrite T1, <- app_assoc. reflexivity. }
  split; [|split].
  - destruct (gensamples_cases w)
      as [[_ E] | [(w' & F & E) | [(w' & _ & F & E) | (w' & _ & F & E)]]];
      rewrite E; cbn [fst snd].
    + exists (B1 ++ B2 ++ B3)%list. split; [|split; [|reflexivity]].
      * unfold done3, block_done. cbn [trace]. rewrite T2, <- !app_assoc. reflexivity.
      * apply staged_in_order; assumption.
    + destruct (stage_block_fails normal_txt Norm _ _ _ _ _ eq_refl F)
        as (rest & Hrest & Hst).
      exists rest. split; [exact Hrest|]. split.
      * apply (same_stage_in_order _ _ Hst).
      * exists rest. split; [exact Hst | left; auto].
    + destruct (stage_block_fails uniform_txt Uniform _ _ _ _ _ eq_refl F)
        as (rest & Hrest & Hst).
      exists (B1 ++ rest)%list. split; [|split].
      * rewrite Hrest, T1, <- app_assoc. reflexivity.
      * rewrite <- (app_nil_r rest).
        apply staged_in_order; [exact S1 | exact Hst | constructor].
      * exists rest. split; [exact Hst | right; left; auto].
    + destruct (stage_block_fails exponential_txt Expon _ _ _ _ _ eq_refl F)
        as (rest & Hrest & Hst).
      exists (B1 ++ B2 ++ rest)%list. split; [|split].
      * rewrite Hrest, T2, <- !app_assoc. reflexivity.
      * apply staged_in_order; assumption.
      * exists rest. split; [exact Hst | right; right; auto].
  - assert (G : gensamples w =
                match sample_block normal_txt Norm f100 f10 100 w with
                | (Raise e, w1) => (Raise e, w1)
                | (Ok _, w1) =>
                    match sample_block uniform_txt Uniform f75 f50 100 w1 with
                    | (Raise e, w2) => (Raise e, w2)
                    | (Ok _, w2) => sample_block exponential_txt Expon f0 f100 100 w2
                    end
                end).
    { unfold gensamples, bind.
      destruct (sample_block normal_txt Norm f100 f10 100 w) as [[[]|?] w1];
        [|reflexivity].
      destruct (sample_block uniform_txt Uniform f75 f50 100 w1) as [[[]|?] w2];
        reflexivity. }
    destruct (block_cases normal_txt Norm f100 f10 100 w)
      as [[_ E1] | (w1 & _ & E1)]; rewrite E1 in G |- *; [|exact G].
    fold (done1 w) in G |- *.
    assert (F1 : files (done1 w) !! normal_txt = Some (written g0))
      by apply lookup_insert_eq.
    assert (F2 : files (done2 w) !! normal_txt = Some (written g0)
                 /\ files (done2 w) !! uniform_txt = Some (written g1)).
    { unfold done2, block_done at 1 2. cbn [files]. split.
      - rewrite lookup_insert_ne by congruence. exact F1.
      - apply lookup_insert_eq. }
    split; [exact F1|]. split; [apply lookup_delete_eq|].
    destruct (block_cases uniform_txt Uniform f75 f50 100 (done1 w))
      as [[_ E2] | (w2 & F & E2)]; rewrite E2 in G |- *.
    + fold (done2 w) in G |- *. destruct F2 as [F2n F2u].
      split; [exact F2n|]. split; [exact F2u|].
      split; [unfold done2, block_done at 1; cbn [handles];
              rewrite lookup_delete_ne by congruence; apply lookup_delete_eq|].
      split; [apply lookup_delete_eq|]. split; [exact G|].
      rewrite G.
      destruct (block_cases exponential_txt Expon f0 f100 100 (done2 w))
        as [[_ E3] | (w3 & F3 & E3)]; rewrite E3; cbn [snd].
      * unfold block_done at 1 2. cbn [files].
        rewrite !(lookup_insert_ne _ exponential_txt) by congruence. auto.
      * rewrite (files_block_fails _ _ _ _ _ _ _ normal_txt H13 F3).
        rewrite (files_block_fails _ _ _ _ _ _ _ uniform_txt H23 F3). auto.
    + split; [exact G|].
      rewrite (files_block_fails _ _ _ _ _ _ _ normal_txt H12 F). exact F1.
  - intros v Hsp. unfold gensamples, bind.
    assert (Hrefl : same_or_untouched (files w) (files v) (files w) (files v))
      by (intros p; right; split; reflexivity).
    destruct (block_files_irrelevant normal_txt Norm f100 f10 100 w v _ _ Hsp Hrefl)
      as (R1 & P1 & U1).
    destruct (sample_block normal_txt Norm f100 f10 100 w) as [[[]|e1] w1],
             (sample_block normal_txt Norm f100 f10 100 v) as [[[]|e1'] v1];
      cbn [fst snd] in *; try discriminate R1; [|auto].
    destruct (block_files_irrelevant uniform_txt Uniform f75 f50 100 w1 v1 _ _ P1 U1)
      as (R2 & P2 & U2).
    destruct (sample_block uniform_txt Uniform f75 f50 100 w1) as [[[]|e2] w2],
             (sample_block uniform_txt Uniform f75 f50 100 v1) as [[[]|e2'] v2];
      cbn [fst snd] in *; try discriminate R2; [|auto].
    exact (block_files_irrelevant exponential_txt Expon f0 f100 100 w2 v2 _ _ P2 U2).
Qed.

(** C5.  [open(path, 'w')] truncates, so running the script again over
    its own output replaces it: after any number of runs in a row that all
    succeed, each of the three files holds exactly 100 lines. *)
Theorem rerun_keeps_100_lines (n : nat) (w : world RNG) :
  (forall v, is_float_literal (float_str v) = true) ->
  fst (rerun (S n) w) = Ok tt ->
  forall p, p ∈ outputs ->
  exists c, files (snd (rerun (S n) w)) !! p = Some c /\ count_lines c = 100.
Proof.
  intros Hlit Hok p Hp. cbn [rerun] in *. unfold bind in *.
  destruct (rerun n w) as [[[]|e] w1]; [|discriminate Hok].
  unfold new_process in *.
  set (w2 := World (files w1) ∅ (clock w1) (seed n) []) in *.
  destruct (success_done w2 Hok) as [E _]. rewrite E. cbn [snd].
  apply done3_outputs; assumption.
Qed.

(** C6, as amended.  When the uniform source yields well-formed numbers in
    [0, 1), every value written to data/uniform.txt lies in the closed
    interval from 75.0 to 125.0; the upper end can be reached. *)
Theorem uniform_values_in_closed_range (w : world RNG) :
  fst (gensamples w) = Ok tt ->
  Forall (fun u => in_unit_interval u = true)
         (fst (draws Uniform 100 (rng_after Norm 100 (random_state w)))) ->
  exists vs : list float,
    files (snd (gensamples w)) !! uniform_txt = Some (written vs)
    /\ length vs = 100
    /\ Forall (fun v => B64.leb f75 v = true /\ B64.leb v f125 = true) vs.
Proof.
  intros Hok Hu. destruct (success_done w Hok) as [E _]. rewrite E. cbn [snd].
  destruct paths_distinct as (H12 & H13 & H23).
  eexists. split; [|split].
  - rewrite files_done3. cbv zeta.
    rewrite lookup_insert_ne, lookup_insert_eq by congruence. reflexivity.
  - apply generated_length.
  - unfold generated. apply Forall_map.
    eapply Forall_impl; [exact Hu|]. intros u. apply uniform_range.
Qed.

(** C7.  When the exponential source yields non-negative numbers, every
    value written to data/exponential.txt is non-negative. *)
Theorem exponential_values_nonnegative (w : world RNG) :
  fst (gensamples w) = Ok tt ->
  Forall (fun z => B64.leb f0 z = true)
         (fst (draws Expon 100
                 (rng_after Uniform 100 (rng_after Norm 100 (random_state w))))) ->
  exists vs : list float,
    files (snd (gensamples w)) !! exponential_txt = Some (written vs)
    /\ length vs = 100
    /\ Forall (fun v => B64.leb f0 v = true) vs.
Proof.
  intros Hok Hz. destruct (success_done w Hok) as [E _]. rewrite E. cbn [snd].
  eexists. split; [|split].
  - rewrite files_done3. cbv zeta. rewrite lookup_insert_eq. reflexivity.
  - apply generated_length.
  - unfold generated. apply Forall_map.
    eapply Forall_impl; [exact Hz|]. intros z. apply expon_nonneg.
Qed.

(** C8.  From a process that holds no file object: whatever [open] or
    closing flush raises, no file object is left open when the run ends.
    The run succeeds exactly when none of its six fallible calls raises,
    and then the exit status is 0.  When a call raises, it is the first
    one to do so and the last one made: nothing is retried and nothing
    follows; the exception that reaches the top level is the [OSError] of
    that call, on the file of its block; and the exit status is 1. *)
Theorem io_error_ends_the_run (w : world RNG) :
  handles w = ∅ ->
  let w' := snd (python_main w) in
  handles w' = ∅
  /\ (fst (gensamples w) = Ok tt <-> no_faults (clock w) 6)
  /\ match fst (gensamples w) with
     | Ok _ => fst (python_main w) = 0%Z /\ clock w' = clock w + 6
     | Raise e =>
         fst (python_main w) = 1%Z
         /\ exists i : nat,
              i < 6
              /\ no_faults (clock w) i
              /\ faults (clock w + i) = true
              /\ clock w' = clock w + i + 1
              /\ Some e = OSError <$> outputs !! (i / 2)
     end.
Proof.
  intros Hh. rewrite python_main_eq. cbn [fst snd]. cbv zeta.
  assert (H1 : handles (done1 w) = ∅) by apply handles_block_done, Hh.
  assert (H2 : handles (done2 w) = ∅) by apply handles_block_done, H1.
  assert (C1 : clock (done1 w) = clock w + 2) by apply clock_block_done.
  assert (C2 : clock (done2 w) = clock w + 4)
    by (unfold done2; rewrite clock_block_done, C1; lia).
  assert (N0 : no_faults (clock w) 0) by (intros k Hk; lia).
  assert (Hiff : fst (gensamples w) = Ok tt <-> no_faults (clock w) 6).
  { split; [intros H; apply (success_done w H) |].
    intros N. rewrite (run_succeeds w N). reflexivity. }
  split; [|split; [exact Hiff|]].
  - destruct (gensamples_cases w)
      as [[N E] | [(w' & F & E) | [(w' & N & F & E) | (w' & N & F & E)]]];
      rewrite E; cbn [snd].
    + apply handles_block_done, H2.
    + exact (handles_block_fails _ _ _ _ _ _ _ Hh F).
    + exact (handles_block_fails _ _ _ _ _ _ _ H1 F).
    + exact (handles_block_fails _ _ _ _ _ _ _ H2 F).
  - destruct (gensamples_cases w)
      as [[N E] | [(w' & F & E) | [(w' & N & F & E) | (w' & N & F & E)]]];
      rewrite E; cbn [fst snd exit_status].
    + split; [reflexivity|]. unfold done3. rewrite clock_block_done, C2. lia.
    + split; [reflexivity|].
      destruct F as [[Hf ->] | (Hopen & Hf & ->)].
      * exists 0. rewrite Nat.add_0_r. cbn [block_open_failed clock].
        repeat split; [lia | exact N0 | exact Hf | lia].
      * exists 1. cbn [block_flush_failed clock].
        repeat split; [lia | | rewrite Nat.add_1_r; exact Hf | lia].
        intros k Hk. replace k with (clock w) by lia. exact Hopen.
    + split; [reflexivity|].
      destruct F as [[Hf ->] | (Hopen & Hf & ->)].
      * rewrite C1 in Hf. exists 2. cbn [block_open_failed clock]. rewrite C1.
        repeat split; [lia | exact N | exact Hf | lia].
      * rewrite C1 in Hf, Hopen. exists 3. cbn [block_flush_failed clock]. rewrite C1.
        repeat split; [lia | | | lia].
        -- change 3 with (2 + 1). apply no_faults_app; [exact N|].
           intros k Hk. replace k with (clock w + 2) by lia. exact Hopen.
        -- replace (clock w + 3) with (S (clock w + 2)) by lia. exact Hf.
    + split; [reflexivity|].
      destruct F as [[Hf ->] | (Hopen & Hf & ->)].
      * rewrite C2 in Hf. exists 4. cbn [block_open_failed clock]. rewrite C2.
        repeat split; [lia | exact N | exact Hf | lia].
      * rewrite C2 in Hf, Hopen. exists 5. cbn [block_flush_failed clock]. rewrite C2.
        repeat split; [lia | | | lia].
        -- change 5 with (4 + 1). apply no_faults_app; [exact N|].
           intros k Hk. replace k with (clock w + 4) by lia. exact Hopen.
        -- replace (clock w + 5) with (S (clock w + 4)) by lia. exact Hf.
Qed.

(** C9.  When the run fails on one file, the files that come later in the
    script are neither created nor modified: a failure on data/normal.txt
    leaves data/uniform.txt and data/exponential.txt as they were, and a
    failure on data/uniform.txt leaves data/exponential.txt as it was. *)
Theorem later_files_untouched (w : world RNG) (p : string) :
  fst (gensamples w) = Raise (OSError p) ->
  let w' := snd (gensamples w) in
  (p = normal_txt ->
   files w' !! uniform_txt = files w !! uniform_txt
   /\ files w' !! exponential_txt = files w !! exponential_txt)
  /\ (p = uniform_txt ->
      files w' !! exponential_txt = files w !! exponential_txt).
Proof.
  intros Hr. destruct paths_distinct as (H12 & H13 & H23).
  destruct (gensamples_cases w)
    as [[_ E] | [(w' & F & E) | [(w' & _ & F & E) | (w' & _ & F & E)]]];
    rewrite E in Hr |- *; cbn [fst snd] in *; try discriminate Hr;
    injection Hr as <-; cbv zeta; (split; [intros Hp | intros Hp]);
    try congruence.
  - split; eapply files_block_fails; [| exact F | | exact F]; congruence.
  - rewrite (files_block_fails _ _ _ _ _ _ _ exponential_txt (not_eq_sym H23) F).
    unfold done1, block_done. cbn [files]. apply lookup_insert_ne. congruence.
Qed.


End ScriptFacts.

(** * Two runs compared *)

Lemma written_ext {RNG1 RNG2 : Type} (R1 : Runtime RNG1) (R2 : Runtime RNG2)
    (vs : list float) :
  (forall v, @float_str _ R1 v = @float_str _ R2 v) ->
  written (R := R1) vs = written (R := R2) vs.
Proof.
  intros H. unfold written, format_line.
  induction vs as [|v vs IH]; [reflexivity|]. cbn [map concat_str].
  rewrite H, IH. reflexivity.
Qed.

Lemma generated_of_draws {RNG : Type} (R : Runtime RNG) d loc scale size r :
  generated d loc scale size r = map (shift_scale loc scale) (fst (draws d size r)).
Proof. reflexivity. Qed.

(** C10.  The contents of the three files depend on nothing but the
    variates consumed: two runs that succeed, under the same conversion of
    floats to text, and whose random sources (of whatever kind, in whatever
    state) yield the same 300 standard variates, leave the same text in
    data/normal.txt, data/uniform.txt and data/exponential.txt, whatever
    the files held before. *)
Theorem output_determined_by_variates
    {RNG1 RNG2 : Type} (R1 : Runtime RNG1) (R2 : Runtime RNG2)
    (w1 : world RNG1) (w2 : world RNG2) :
  (forall v, @float_str _ R1 v = @float_str _ R2 v) ->
  fst (gensamples (R := R1) w1) = Ok tt ->
  fst (gensamples (R := R2) w2) = Ok tt ->
  variates (R := R1) (random_state w1) = variates (R := R2) (random_state w2) ->
  forall p, p ∈ outputs ->
  files (snd (gensamples (R := R1) w1)) !! p
  = files (snd (gensamples (R := R2) w2)) !! p.
Proof.
  intros Hstr Hok1 Hok2 Hvar p Hp.
  destruct (success_done w1 Hok1) as [E1 _]. destruct (success_done w2 Hok2) as [E2 _].
  rewrite E1, E2. cbn [snd]. rewrite !files_done3. cbv zeta.
  pose proof (f_equal (fun t => fst (fst t)) Hvar) as Hn.
  pose proof (f_equal (fun t => snd (fst t)) Hvar) as Hu.
  pose proof (f_equal snd Hvar) as He.
  unfold variates in Hn, Hu, He. cbv beta zeta in Hn, Hu, He.
  cbn [fst snd] in Hn, Hu, He.
  rewrite !generated_of_draws, Hn, Hu, He.
  rewrite !(written_ext R1 R2 _ Hstr).
  destruct paths_distinct as (H12 & H13 & H23).
  unfold outputs in Hp. rewrite !elem_of_cons, elem_of_nil in Hp.
  destruct Hp as [-> | [-> | [-> | []]]].
  - rewrite !(lookup_insert_ne _ exponential_txt normal_txt) by congruence.
    rewrite !(lookup_insert_ne _ uniform_txt normal_txt) by congruence.
    rewrite !lookup_insert_eq. reflexivity.
  - rewrite !(lookup_insert_ne _ exponential_txt uniform_txt) by congruence.
    rewrite !lookup_insert_eq. reflexivity.
  - rewrite !lookup_insert_eq. reflexivity.
Qed.

(** * The script on the test doubles *)

Lemma Forall_bool {A : Type} (f : A -> bool) (l : list A) :
  forallb f l = true -> Forall (fun x => f x = true) l.
Proof.
  induction l as [|x l IH]; simpl; intros H; constructor;
    apply andb_prop in H as [Hx Hl]; auto.
Qed.

(** C6, as stated, fails.  The uniform variates of the tape are all in
    [0, 1); the last is [1 - 2^-53].  For it, [50.0 * u] rounds to
    [50 - 2^-47], and [75.0 + (50 - 2^-47)] lies halfway between two
    binary64 numbers and rounds to the even one, 125.0: the last line of
    data/uniform.txt is 125.0, which is not below 125.0. *)
Lemma uniform_sample_reaches_125 :
  fst (gensamples (R := tape_runtime no_fault) fresh_world) = Ok tt
  /\ Forall (fun u => in_unit_interval u = true)
       (fst (draws (R := tape_runtime no_fault) Uniform 100
               (rng_after (R := tape_runtime no_fault) Norm 100
                  (random_state fresh_world))))
  /\ files (snd (gensamples (R := tape_runtime no_fault) fresh_world)) !! uniform_txt
     = Some (written (R := tape_runtime no_fault)
               (generated (R := tape_runtime no_fault) Uniform f75 f50 100
                  (rng_after (R := tape_runtime no_fault) Norm 100
                     (random_state fresh_world))))
  /\ lines (written (R := tape_runtime no_fault)
              (generated (R := tape_runtime no_fault) Uniform f75 f50 100
                 (rng_after (R := tape_runtime no_fault) Norm 100
                    (random_state fresh_world)))) !! 99
     = Some "125.0"
  /\ ~ Forall (fun v => B64.leb f75 v = true /\ B64.ltb v f125 = true)
        (generated (R := tape_runtime no_fault) Uniform f75 f50 100
           (rng_after (R := tape_runtime no_fault) Norm 100
              (random_state fresh_world))).
Proof.
  split; [vm_compute; reflexivity|].
  split; [apply Forall_bool; vm_compute; reflexivity|].
  split; [vm_compute; reflexivity|].
  split; [vm_compute; reflexivity|].
  intros H.
  assert (Hlast : generated (R := tape_runtime no_fault) Uniform f75 f50 100
                    (rng_after (R := tape_runtime no_fault) Norm 100
                       (random_state fresh_world)) !! 99 = Some f125)
    by (vm_compute; reflexivity).
  destruct (Forall_lookup_1 _ _ _ _ H Hlast) as [_ Hlt].
  vm_compute in Hlt. discriminate Hlt.
Qed.

Lemma three_files_of_100_lines_witness :
  (forall v, is_float_literal (@float_str _ (tape_runtime no_fault) v) = true)
  /\ fst (gensamples (R := tape_runtime no_fault) stale_world) = Ok tt
  /\ exists c1 c2 c3 : string,
       files (snd (gensamples (R := tape_runtime no_fault) stale_world))
       = <[exponential_txt := c3]>
           (<[uniform_txt := c2]> (<[normal_txt := c1]> (files stale_world)))
       /\ dom (files (snd (gensamples (R := tape_runtime no_fault) stale_world)))
          = {[normal_txt; uniform_txt; exponential_txt]} ∪ dom (files stale_world)
       /\ count_lines c1 = 100 /\ count_lines c2 = 100 /\ count_lines c3 = 100.
Proof.
  split; [exact exact_str_literal|]. split; [vm_compute; reflexivity|].
  apply (three_files_of_100_lines (R := tape_runtime no_fault) stale_world);
    [exact exact_str_literal | vm_compute; reflexivity].
Defined.

Lemma contents_are_formatted_samples_witness :
  (forall v, is_float_literal (@float_str _ (tape_runtime no_fault) v) = true)
  /\ fst (gensamples (R := tape_runtime no_fault) stale_world) = Ok tt
  /\ files (snd (gensamples (R := tape_runtime no_fault) stale_world)) !! uniform_txt
     = Some (concat_str
               (map (fun v => exact_str v +:+ newline)
                  (generated (R := tape_runtime no_fault) Uniform f75 f50 100
                     (rng_after (R := tape_runtime no_fault) Norm 100
                        (random_state stale_world))))).
Proof.
  split; [exact exact_str_literal|]. split; [vm_compute; reflexivity|].
  apply (contents_are_formatted_samples (R := tape_runtime no_fault) stale_world
           exact_str_literal);
    [vm_compute; reflexivity|].
  apply list_elem_of_further, list_elem_of_here.
Defined.

Lemma rvs_called_with_script_parameters_witness :
  fst (gensamples (R := tape_runtime no_fault) fresh_world) = Ok tt
  /\ exists evs : list event,
       trace (snd (gensamples (R := tape_runtime no_fault) fresh_world))
       = (trace fresh_world ++ evs)%list
       /\ rvs_calls evs
          = [(Norm, B64.of_Z 100, B64.of_Z 10, 100);
             (Uniform, B64.of_Z 75, B64.of_Z 50, 100);
             (Expon, B64.of_Z 0, B64.of_Z 100, 100)].
Proof.
  split; [vm_compute; reflexivity|].
  apply (rvs_called_with_script_parameters (R := tape_runtime no_fault) fresh_world).
  vm_compute; reflexivity.
Defined.

Lemma rerun_keeps_100_lines_witness :
  (forall v, is_float_literal (@float_str _ (tape_runtime no_fault) v) = true)
  /\ fst (rerun (R := tape_runtime no_fault) 3 stale_world) = Ok tt
  /\ exists c,
       files (snd (rerun (R := tape_runtime no_fault) 3 stale_world)) !! uniform_txt
       = Some c
       /\ count_lines c = 100.
Proof.
  split; [exact exact_str_literal|]. split; [vm_compute; reflexivity|].
  apply (rerun_keeps_100_lines (R := tape_runtime no_fault) 2 stale_world
           exact_str_literal);
    [vm_compute; reflexivity|].
  apply list_elem_of_further, list_elem_of_here.
Defined.

Lemma uniform_values_in_closed_range_witness :
  fst (gensamples (R := tape_runtime no_fault) fresh_world) = Ok tt
  /\ Forall (fun u => in_unit_interval u = true)
       (fst (draws (R := tape_runtime no_fault) Uniform 100
               (rng_after (R := tape_runtime no_fault) Norm 100
                  (random_state fresh_world))))
  /\ exists vs : list float,
       files (snd (gensamples (R := tape_runtime no_fault) fresh_world)) !! uniform_txt
       = Some (written (R := tape_runtime no_fault) vs)
       /\ length vs = 100
       /\ Forall (fun v => B64.leb f75 v = true /\ B64.leb v f125 = true) vs.
Proof.
  split; [vm_compute; reflexivity|].
  split; [apply Forall_bool; vm_compute; reflexivity|].
  apply (uniform_values_in_closed_range (R := tape_runtime no_fault) fresh_world);
    [vm_compute; reflexivity | apply Forall_bool; vm_compute; reflexivity].
Defined.

Lemma exponential_values_nonnegative_witness :
  fst (gensamples (R := tape_runtime no_fault) fresh_world) = Ok tt
  /\ Forall (fun z => B64.leb f0 z = true)
       (fst (draws (R := tape_runtime no_fault) Expon 100
               (rng_after (R := tape_runtime no_fault) Uniform 100
                  (rng_after (R := tape_runtime no_fault) Norm 100
                     (random_state fresh_world)))))
  /\ exists vs : list float,
       files (snd (gensamples (R := tape_runtime no_fault) fresh_world))
         !! exponential_txt
       = Some (written (R := tape_runtime no_fault) vs)
       /\ length vs = 100
       /\ Forall (fun v => B64.leb f0 v = true) vs.
Proof.
  split; [vm_compute; reflexivity|].
  split; [apply Forall_bool; vm_compute; reflexivity|].
  apply (exponential_values_nonnegative (R := tape_runtime no_fault) fresh_world);
    [vm_compute; reflexivity | apply Forall_bool; vm_compute; reflexivity].
Defined.

(** Two worlds of one process that differ in the files on disk. *)
Lemma blocks_run_in_script_order_witness :
  same_process fresh_world stale_world
  /\ fst (gensamples (R := tape_runtime (fault_at 3)) stale_world)
     = fst (gensamples (R := tape_runtime (fault_at 3)) fresh_world)
  /\ trace (snd (gensamples (R := tape_runtime (fault_at 3)) fresh_world))
     = trace (snd (gensamples (R := tape_runtime (fault_at 3)) stale_world)).
Proof.
  assert (Hsp : same_process fresh_world stale_world) by (repeat split).
  split; [exact Hsp|].
  pose proof (blocks_run_in_script_order (R := tape_runtime (fault_at 3))
                fresh_world) as H.
  cbv zeta in H. destruct H as (_ & _ & H).
  destruct (H stale_world Hsp) as (Hr & (_ & _ & _ & Ht) & _).
  split; [exact Hr | exact Ht].
Defined.

(** The calls that can fail are numbered from 0: the call of index 3 is the
    closing flush of data/uniform.txt. *)
Lemma io_error_ends_the_run_witness :
  handles fresh_world = ∅
  /\ fst (gensamples (R := tape_runtime (fault_at 3)) fresh_world)
     = Raise (OSError uniform_txt)
  /\ handles (snd (python_main (R := tape_runtime (fault_at 3)) fresh_world)) = ∅
  /\ fst (python_main (R := tape_runtime (fault_at 3)) fresh_world) = 1%Z.
Proof.
  split; [reflexivity|]. split; [vm_compute; reflexivity|].
  pose proof (io_error_ends_the_run (R := tape_runtime (fault_at 3)) fresh_world
                eq_refl) as H.
  cbv zeta in H. destruct H as (Hh & _ & Hm). split; [exact Hh|].
  replace (fst (gensamples (R := tape_runtime (fault_at 3)) fresh_world))
    with (@Raise unit (OSError uniform_txt)) in Hm by (vm_compute; reflexivity).
  exact (proj1 Hm).
Defined.

Lemma later_files_untouched_witness :
  fst (gensamples (R := tape_runtime (fault_at 3)) stale_world)
  = Raise (OSError uniform_txt)
  /\ files (snd (gensamples (R := tape_runtime (fault_at 3)) stale_world))
       !! exponential_txt
     = files stale_world !! exponential_txt.
Proof.
  split; [vm_compute; reflexivity|].
  apply (later_files_untouched (R := tape_runtime (fault_at 3)) stale_world
           uniform_txt);
    [vm_compute; reflexivity | reflexivity].
Defined.

(** A tape that is popped and a cursor that walks the same tape yield the
    same variates. *)
Lemma output_determined_by_variates_witness :
  (forall v, @float_str _ (tape_runtime no_fault) v
             = @float_str _ (cursor_runtime demo_tape no_fault) v)
  /\ fst (gensamples (R := tape_runtime no_fault) stale_world) = Ok tt
  /\ fst (gensamples (R := cursor_runtime demo_tape no_fault) cursor_world) = Ok tt
  /\ variates (R := tape_runtime no_fault) (random_state stale_world)
     = variates (R := cursor_runtime demo_tape no_fault) (random_state cursor_world)
  /\ files (snd (gensamples (R := tape_runtime no_fault) stale_world)) !! uniform_txt
     = files (snd (gensamples (R := cursor_runtime demo_tape no_fault) cursor_world))
         !! uniform_txt.
Proof.
  split; [reflexivity|]. split; [vm_compute; reflexivity|].
  split; [vm_compute; reflexivity|]. split; [vm_compute; reflexivity|].
  apply (output_determined_by_variates (tape_runtime no_fault)
           (cursor_runtime demo_tape no_fault) stale_world cursor_world);
    [reflexivity | vm_compute; reflexivity | vm_compute; reflexivity
     | vm_compute; reflexivity |].
  apply list_elem_of_further, list_elem_of_here.
Defined.


(** * Further properties of the script *)

Section SignFacts.

Local Open Scope Z_scope.

(** The sign given to [binary_round_aux] only labels the result. *)
Lemma round_aux_sign (sx : bool) (m e : Z) (l : location) :
  binary_round_aux 53 1024 sx m e l
  = match binary_round_aux 53 1024 false m e l with
    | S754_zero _ => S754_zero sx
    | S754_infinity _ => S754_infinity sx
    | S754_finite _ m' e' => S754_finite sx m' e'
    | S754_nan => S754_nan
    end.
Proof.
  unfold binary_round_aux.
  destruct (shr_fexp 53 1024 m e l) as [mrs' e'].
  destruct (shr_fexp 53 1024 _ e' loc_Exact) as [mrs'' e''].
  destruct (shr_m mrs''); [reflexivity | | reflexivity].
  destruct (e'' <=? 1024 - 53); reflexivity.
Qed.

Lemma round_aux_not_nan (sx : bool) (m : positive) (e : Z) :
  is_nan (binary_round_aux 53 1024 sx (Zpos m) e loc_Exact) = false.
Proof.
  rewrite round_aux_sign. pose proof (round_sign m e) as H.
  destruct (binary_round_aux 53 1024 false (Zpos m) e loc_Exact);
    [reflexivity | reflexivity | contradiction | reflexivity].
Qed.

Lemma binary_round_not_nan (sx : bool) (m : positive) (e : Z) :
  is_nan (binary_round 53 1024 sx m e) = false.
Proof.
  unfold binary_round. destruct (shl_align m e _) as [mz ez].
  apply round_aux_not_nan.
Qed.

Lemma add_finite_not_nan (sx sy : bool) (mx my : positive) (ex ey : Z) :
  is_nan (B64.add (S754_finite sx mx ex) (S754_finite sy my ey)) = false.
Proof.
  unfold B64.add, SFadd. cbv zeta. unfold binary_normalize.
  destruct (_ + _); [reflexivity | apply binary_round_not_nan ..].
Qed.

(** [z * scale + loc] is NaN only when [z] is: for a finite non-zero
    scale and a finite location. *)
Lemma shift_scale_not_nan (loc scale z : float) :
  (exists s m e, scale = S754_finite s m e) ->
  (exists s, loc = S754_zero s) \/ (exists s m e, loc = S754_finite s m e) ->
  is_nan z = false ->
  is_nan (shift_scale loc scale z) = false.
Proof.
  intros (ss & ms & es & ->) Hloc Hz. unfold shift_scale.
  assert (Hmul : is_nan (B64.mul z (S754_finite ss ms es)) = false).
  { destruct z as [s|s| |s m e]; try reflexivity; [discriminate Hz|].
    apply round_aux_not_nan. }
  destruct (B64.mul z (S754_finite ss ms es)) as [s|s| |s m e];
    [ | | discriminate Hmul | ].
  - destruct Hloc as [[sl ->] | (sl & ml & el & ->)]; [destruct s, sl|]; reflexivity.
  - destruct Hloc as [[sl ->] | (sl & ml & el & ->)]; reflexivity.
  - destruct Hloc as [[sl ->] | (sl & ml & el & ->)];
      [reflexivity | apply add_finite_not_nan].
Qed.

(** [0.0 + 100.0 * z] has its sign bit clear for every [z >= 0], the
    negative zero included. *)
Lemma expon_sign_clear (z : float) :
  B64.leb f0 z = true -> sign_bit (shift_scale f0 f100 z) = false.
Proof.
  intros H. destruct z as [s|s| |s m e].
  - destruct s; reflexivity.
  - destruct s; [discriminate | reflexivity].
  - discriminate.
  - destruct s; [discriminate|].
    unfold shift_scale, B64.mul, SFmul, f100. simpl xorb.
    pose proof (round_sign (m * 7036874417766400) (e + -46)) as Hs.
    change B64.prec with 53. change B64.emax with 1024.
    destruct (binary_round_aux 53 1024 false (Z.pos (m * 7036874417766400)) (e + -46) loc_Exact)
      as [sy|sy| |sy my ey]; try contradiction; subst sy; reflexivity.
Qed.

End SignFacts.

Section ScriptExtras.

Context {RNG : Type} `{R : Runtime RNG}.

Lemma files_block_done_ne p d loc scale size (w : world RNG) (q : string) :
  q <> p -> files (block_done p d loc scale size w) !! q = files w !! q.
Proof.
  intros Hq. unfold block_done. cbn [files]. apply lookup_insert_ne. congruence.
Qed.

Lemma not_output (q : string) :
  q ∉ outputs ->
  q <> normal_txt /\ q <> uniform_txt /\ q <> exponential_txt.
Proof.
  unfold outputs. rewrite !not_elem_of_cons. intros (H1 & H2 & H3 & _). auto.
Qed.

(** X1.  Whatever happens, a run changes no file other than
    data/normal.txt, data/uniform.txt and data/exponential.txt: any other
    path is bound afterwards to what it was bound before, and is absent if
    it was absent. *)
Theorem other_files_untouched (w : world RNG) (q : string) :
  q ∉ outputs ->
  files (snd (gensamples w)) !! q = files w !! q.
Proof.
  intros Hq. destruct (not_output q Hq) as (Q1 & Q2 & Q3).
  assert (D1 : files (done1 w) !! q = files w !! q)
    by (apply files_block_done_ne; exact Q1).
  assert (D2 : files (done2 w) !! q = files w !! q)
    by (unfold done2; rewrite files_block_done_ne by exact Q2; exact D1).
  destruct (gensamples_cases w)
    as [[_ E] | [(w' & F & E) | [(w' & _ & F & E) | (w' & _ & F & E)]]];
    rewrite E; cbn [snd].
  - unfold done3. rewrite files_block_done_ne by exact Q3. exact D2.
  - apply (files_block_fails _ _ _ _ _ _ _ q Q1 F).
  - rewrite (files_block_fails _ _ _ _ _ _ _ q Q2 F). exact D1.
  - rewrite (files_block_fails _ _ _ _ _ _ _ q Q3 F). exact D2.
Qed.

(** X2.  When the very first [open] raises (the data/ directory is missing
    or not writable), the run has no effect beyond the failed call: no
    file is created or changed, no random variate is drawn, no handle is
    taken, and the exit status is 1. *)
Theorem first_open_failure_has_no_effect (w : world RNG) :
  faults (clock w) = true ->
  fst (python_main w) = 1%Z
  /\ fst (gensamples w) = Raise (OSError normal_txt)
  /\ files (snd (gensamples w)) = files w
  /\ random_state (snd (gensamples w)) = random_state w
  /\ handles (snd (gensamples w)) = handles w
  /\ trace (snd (gensamples w)) = (trace w ++ [EvOpenFail normal_txt])%list.
Proof.
  intros Hf. rewrite python_main_eq.
  assert (E : gensamples w
              = (Raise (OSError normal_txt), block_open_failed normal_txt w)).
  { unfold gensamples, bind. rewrite block_open_fail by exact Hf. reflexivity. }
  rewrite E. repeat split; reflexivity.
Qed.

(** The first [n] characters of a text are a prefix of it. *)
Lemma prefix_is_prefix (n : nat) (s : string) :
  exists rest : string, s = prefix n s +:+ rest.
Proof.
  revert s. induction n as [|n IH]; intros s.
  - exists s. destruct s; reflexivity.
  - destruct s as [|c s]; [exists EmptyString; reflexivity|].
    destruct (IH s) as (rest & Hrest). exists rest.
    cbn [prefix].
    change (String c (prefix n s) +:+ rest) with (String c (prefix n s +:+ rest)).
    f_equal. exact Hrest.
Qed.

(** What a failed block leaves at its own path. *)
Lemma own_file_block_fails p d loc scale size (w w' : world RNG) :
  block_fails p d loc scale size w w' ->
  files w' !! p = files w !! p
  \/ exists part rest : string,
       files w' !! p = Some part
       /\ written (generated d loc scale size (random_state w)) = part +:+ rest.
Proof.
  intros [[_ ->] | (_ & _ & ->)]; [left; reflexivity|].
  right.
  destruct (prefix_is_prefix (short_write (S (clock w)))
              (written (generated d loc scale size (random_state w))))
    as (rest & Hrest).
  eexists. exists rest. split; [|exact Hrest].
  unfold block_flush_failed. cbn [files]. apply lookup_insert_eq.
Qed.

(** X3.  When the run fails on a file, that file is either as it was
    before the run (its [open] raised) or cut short (its closing flush
    raised): it has been truncated and holds the first characters of the
    text of its block, as many as reached the disk before the error,
    possibly ending in the middle of a line, and nothing of what it held
    before. *)
Theorem failed_file_is_cut_short (w : world RNG) (p : string) :
  fst (gensamples w) = Raise (OSError p) ->
  let r0 := random_state w in
  let r1 := rng_after Norm 100 r0 in
  let r2 := rng_after Uniform 100 r1 in
  exists vs : list float,
    (p, vs) ∈ [(normal_txt, generated Norm f100 f10 100 r0);
               (uniform_txt, generated Uniform f75 f50 100 r1);
               (exponential_txt, generated Expon f0 f100 100 r2)]
    /\ (files (snd (gensamples w)) !! p = files w !! p
        \/ exists part rest : string,
             files (snd (gensamples w)) !! p = Some part
             /\ written vs = part +:+ rest).
Proof.
  intros Hr r0 r1 r2. destruct paths_distinct as (H12 & H13 & H23).
  destruct (gensamples_cases w)
    as [[_ E] | [(w' & F & E) | [(w' & _ & F & E) | (w' & _ & F & E)]]];
    rewrite E in Hr |- *; cbn [fst snd] in *; try discriminate Hr;
    injection Hr as <-; eexists; (split; [| destruct (own_file_block_fails _ _ _ _ _ _ _ F)
                                             as [Hsame | (part & rest & Hc & Hpre)]]).
  - apply list_elem_of_here.
  - left. exact Hsame.
  - right. exists part, rest. split; [exact Hc | exact Hpre].
  - apply list_elem_of_further, list_elem_of_here.
  - left. rewrite Hsame. apply files_block_done_ne. congruence.
  - right. exists part, rest. split; [exact Hc | exact Hpre].
  - apply list_elem_of_further, list_elem_of_further, list_elem_of_here.
  - left. rewrite Hsame. unfold done2, done1.
    rewrite !files_block_done_ne by congruence. reflexivity.
  - right. exists part, rest. split; [exact Hc | exact Hpre].
Qed.

Lemma files_done1_normal (w : world RNG) :
  files (done1 w) !! normal_txt
  = Some (written (generated Norm f100 f10 100 (random_state w))).
Proof. unfold done1, block_done. cbn [files]. apply lookup_insert_eq. Qed.

Lemma files_done2 (w : world RNG) :
  files (done2 w) !! normal_txt
  = Some (written (generated Norm f100 f10 100 (random_state w)))
  /\ files (done2 w) !! uniform_txt
     = Some (written (generated Uniform f75 f50 100
                        (rng_after Norm 100 (random_state w)))).
Proof.
  destruct paths_distinct as (H12 & _). unfold done2. split.
  - rewrite files_block_done_ne by exact H12. apply files_done1_normal.
  - unfold block_done at 1. cbn [files]. apply lookup_insert_eq.
Qed.

(** X4.  When the run fails on a file, the files before it in the script
    are complete: after a failure on data/uniform.txt, data/normal.txt
    holds its 100 samples; after a failure on data/exponential.txt, so do
    data/normal.txt and data/uniform.txt. *)
Theorem earlier_files_complete (w : world RNG) (p : string) :
  fst (gensamples w) = Raise (OSError p) ->
  let r0 := random_state w in
  let r1 := rng_after Norm 100 r0 in
  (p = uniform_txt ->
   files (snd (gensamples w)) !! normal_txt
   = Some (written (generated Norm f100 f10 100 r0)))
  /\ (p = exponential_txt ->
      files (snd (gensamples w)) !! normal_txt
      = Some (written (generated Norm f100 f10 100 r0))
      /\ files (snd (gensamples w)) !! uniform_txt
         = Some (written (generated Uniform f75 f50 100 r1))).
Proof.
  intros Hr r0 r1. destruct paths_distinct as (H12 & H13 & H23).
  destruct (gensamples_cases w)
    as [[_ E] | [(w' & F & E) | [(w' & _ & F & E) | (w' & _ & F & E)]]];
    rewrite E in Hr |- *; cbn [fst snd] in *; try discriminate Hr;
    injection Hr as <-; (split; intros Hp); try congruence.
  - rewrite (files_block_fails _ _ _ _ _ _ _ normal_txt H12 F).
    apply files_done1_normal.
  - rewrite (files_block_fails _ _ _ _ _ _ _ normal_txt H13 F).
    rewrite (files_block_fails _ _ _ _ _ _ _ uniform_txt H23 F).
    apply files_done2.
Qed.

Lemma rng_block_fails p d loc scale size (w w' : world RNG) :
  block_fails p d loc scale size w w' ->
  (faults (clock w) = true /\ random_state w' = random_state w)
  \/ (faults (clock w) = false
      /\ random_state w' = rng_after d size (random_state w)).
Proof.
  intros [[Hf ->] | (Hopen & _ & ->)]; [left | right]; split; auto.
Qed.

(** X5.  The random source is consumed a whole block at a time, because
    [rvs] draws its 100 variates before the first write.  A run that
    succeeds leaves the state reached after 100 normal, 100 uniform and 100
    exponential draws.  A run that fails on a file leaves the state from
    before that file's block when the [open] raised, and the state from
    after all 100 draws of the block when the closing flush raised. *)
Theorem random_state_at_block_boundary (w : world RNG) :
  let r0 := random_state w in
  let r1 := rng_after Norm 100 r0 in
  let r2 := rng_after Uniform 100 r1 in
  let r3 := rng_after Expon 100 r2 in
  let rs := random_state (snd (gensamples w)) in
  let at_boundary (opening : nat) (before after : RNG) :=
    (faults opening = true /\ rs = before)
    \/ (faults opening = false /\ rs = after) in
  match fst (gensamples w) with
  | Ok _ => rs = r3
  | Raise (OSError p) =>
      (p = normal_txt /\ at_boundary (clock w) r0 r1)
      \/ (p = uniform_txt /\ at_boundary (clock w + 2) r1 r2)
      \/ (p = exponential_txt /\ at_boundary (clock w + 4) r2 r3)
  end.
Proof.
  intros r0 r1 r2 r3 rs at_boundary. subst rs at_boundary. cbv beta.
  assert (C1 : clock (done1 w) = clock w + 2) by apply clock_block_done.
  assert (C2 : clock (done2 w) = clock w + 4)
    by (unfold done2; rewrite clock_block_done, C1; lia).
  destruct (gensamples_cases w)
    as [[_ E] | [(w' & F & E) | [(w' & _ & F & E) | (w' & _ & F & E)]]];
    rewrite E; cbn [fst snd].
  - reflexivity.
  - left. split; [reflexivity|]. exact (rng_block_fails _ _ _ _ _ _ _ F).
  - right; left. split; [reflexivity|]. rewrite <- C1.
    exact (rng_block_fails _ _ _ _ _ _ _ F).
  - right; right. split; [reflexivity|]. rewrite <- C2.
    exact (rng_block_fails _ _ _ _ _ _ _ F).
Qed.

(** X6.  After any number of runs in a row that all succeed, each in a
    process of its own, the three files hold the samples of the last run
    and nothing of the earlier ones: each holds the 100 values drawn from
    the state in which the generator of the last process was seeded,
    whatever the earlier runs drew. *)
Theorem rerun_holds_last_samples (n : nat) (w : world RNG) :
  fst (rerun (S n) w) = Ok tt ->
  let r0 := seed n in
  let r1 := rng_after Norm 100 r0 in
  let r2 := rng_after Uniform 100 r1 in
  files (snd (rerun (S n) w)) !! normal_txt
  = Some (written (generated Norm f100 f10 100 r0))
  /\ files (snd (rerun (S n) w)) !! uniform_txt
     = Some (written (generated Uniform f75 f50 100 r1))
  /\ files (snd (rerun (S n) w)) !! exponential_txt
     = Some (written (generated Expon f0 f100 100 r2))
  /\ random_state (snd (rerun (S n) w)) = after_run (seed n).
Proof.
  intros Hok. cbn [rerun] in *. unfold bind in *.
  destruct (rerun n w) as [[[]|e] w1]; [|discriminate Hok].
  unfold new_process in *.
  set (w2 := World (files w1) ∅ (clock w1) (seed n) []) in *.
  destruct (success_done w2 Hok) as [E _]. rewrite E. cbn [snd]. cbv zeta.
  destruct paths_distinct as (H12 & H13 & H23).
  rewrite files_done3. cbv zeta.
  rewrite lookup_insert_ne, lookup_insert_ne, lookup_insert_eq by congruence.
  rewrite lookup_insert_ne, lookup_insert_eq by congruence.
  rewrite lookup_insert_eq. repeat split; reflexivity.
Qed.

End ScriptExtras.

Section HandleFacts.

Lemma held_app (h : gset string) (l1 l2 : list event) :
  held h (l1 ++ l2) = held (held h l1) l2.
Proof. unfold held. apply fold_left_app. Qed.

Lemma held_neutral (l : list event) : forall h : gset string,
  Forall neutral l -> held h l = h.
Proof.
  induction l as [|e l IH]; intros h Hn; [reflexivity|].
  apply Forall_cons in Hn as [He Hl]. unfold held in *. cbn [fold_left].
  rewrite IH by exact Hl. destruct e; try reflexivity; contradiction.
Qed.

Lemma neutral_writes (p : string) (data : list string) :
  Forall neutral (map (EvWrite p) data).
Proof. apply Forall_map, Forall_true. intros x. exact I. Qed.

Lemma one_at_a_time_nil : one_at_a_time [].
Proof.
  split; [reflexivity|]. intros n. rewrite take_nil. cbn. rewrite size_empty. lia.
Qed.

Lemma one_at_a_time_app (l1 l2 : list event) :
  one_at_a_time l1 -> one_at_a_time l2 -> one_at_a_time (l1 ++ l2).
Proof.
  intros [E1 P1] [E2 P2]. split.
  - rewrite held_app, E1. exact E2.
  - intros n. rewrite take_app, held_app.
    destruct (decide (n <= length l1)) as [Hn | Hn].
    + replace (n - length l1) with 0 by lia. rewrite take_0. apply P1.
    + rewrite take_ge by lia. rewrite E1. apply P2.
Qed.

(** One file opened, used and closed. *)
Lemma one_at_a_time_block (p : string) (N : list event) :
  Forall neutral N -> one_at_a_time (EvOpen p :: N ++ [EvClose p]).
Proof.
  intros HN.
  assert (Hp : size ({[p]} ∪ (∅ : gset string)) = 1)
    by (rewrite union_empty_r_L; apply size_singleton).
  assert (Hc : ({[p]} ∪ (∅ : gset string)) ∖ {[p]} = ∅) by set_solver.
  split.
  - change (held ∅ (EvOpen p :: N ++ [EvClose p]))
      with (held ({[p]} ∪ ∅) (N ++ [EvClose p])).
    rewrite held_app, (held_neutral N) by exact HN. exact Hc.
  - intros [|m]; [cbn; rewrite size_empty; lia|].
    change (held ∅ (take (S m) (EvOpen p :: N ++ [EvClose p])))
      with (held ({[p]} ∪ ∅) (take m (N ++ [EvClose p]))).
    rewrite take_app, held_app, (held_neutral (take m N)) by (apply Forall_take, HN).
    destruct (m - length N) as [|j].
    + cbn. rewrite Hp. lia.
    + cbn [take]. rewrite take_nil.
      change (held ({[p]} ∪ ∅) [EvClose p]) with (({[p]} ∪ (∅ : gset string)) ∖ {[p]}).
      rewrite Hc, size_empty. lia.
Qed.

Lemma one_at_a_time_open_fail (p : string) : one_at_a_time [EvOpenFail p].
Proof.
  split; [reflexivity|].
  intros [|[|n]]; cbn; rewrite size_empty; lia.
Qed.

End HandleFacts.

Section ScriptExtras2.

Context {RNG : Type} `{R : Runtime RNG}.

Lemma one_at_a_time_block_events p d loc scale size vs :
  one_at_a_time (block_events p d loc scale size vs).
Proof.
  unfold block_events.
  replace (EvOpen p :: EvRvs d loc scale size
             :: writes p vs ++ [EvFlush p (written vs); EvClose p])
    with (EvOpen p
            :: (EvRvs d loc scale size :: writes p vs ++ [EvFlush p (written vs)])
            ++ [EvClose p])
    by (cbn [app]; rewrite <- app_assoc; reflexivity).
  apply one_at_a_time_block. constructor; [exact I|].
  apply Forall_app. split; [|repeat constructor].
  unfold writes. apply Forall_map, Forall_true. intros v. exact I.
Qed.

Lemma one_at_a_time_failed_events p d loc scale size vs part :
  one_at_a_time (failed_events p d loc scale size vs part).
Proof.
  unfold failed_events.
  replace (EvOpen p :: EvRvs d loc scale size
             :: writes p vs ++ [EvFlushFail p part; EvClose p])
    with (EvOpen p
            :: (EvRvs d loc scale size :: writes p vs ++ [EvFlushFail p part])
            ++ [EvClose p])
    by (cbn [app]; rewrite <- app_assoc; reflexivity).
  apply one_at_a_time_block. constructor; [exact I|].
  apply Forall_app. split; [|repeat constructor].
  unfold writes. apply Forall_map, Forall_true. intros x. exact I.
Qed.

Lemma one_at_a_time_block_fails p d loc scale size (w w' : world RNG) :
  block_fails p d loc scale size w w' ->
  exists F : list event,
    trace w' = (trace w ++ F)%list /\ one_at_a_time F.
Proof.
  intros [[_ ->] | (_ & _ & ->)].
  - exists [EvOpenFail p]. split; [reflexivity | apply one_at_a_time_open_fail].
  - eexists. split; [reflexivity | apply one_at_a_time_failed_events].
Qed.

(** X7.  In every run, with or without an I/O error, the script holds at
    most one file open at any moment, and none when it ends: replaying the
    [open] and [close] events of the run from no open file, no prefix of
    the events leaves more than one file open, and the whole run leaves
    none. *)
Theorem one_file_open_at_a_time (w : world RNG) :
  exists evs : list event,
    trace (snd (gensamples w)) = (trace w ++ evs)%list
    /\ held ∅ evs = ∅
    /\ forall n, size (held ∅ (take n evs)) <= 1.
Proof.
  assert (T1 : exists B1, trace (done1 w) = (trace w ++ B1)%list /\ one_at_a_time B1).
  { eexists. split; [reflexivity | apply one_at_a_time_block_events]. }
  destruct T1 as (B1 & T1 & O1).
  assert (T2 : exists B2, trace (done2 w) = (trace w ++ B1 ++ B2)%list
                          /\ one_at_a_time B2).
  { eexists. split; [| apply one_at_a_time_block_events].
    unfold done2, block_done. cbn [trace]. rewrite T1, <- app_assoc. reflexivity. }
  destruct T2 as (B2 & T2 & O2).
  destruct (gensamples_cases w)
    as [[_ E] | [(w' & F & E) | [(w' & _ & F & E) | (w' & _ & F & E)]]];
    rewrite E; cbn [snd].
  - exists (B1 ++ B2 ++ block_events exponential_txt Expon f0 f100 100
                        (generated Expon f0 f100 100 (random_state (done2 w))))%list.
    split.
    + unfold done3, block_done. cbn [trace]. rewrite T2, <- !app_assoc. reflexivity.
    + repeat apply one_at_a_time_app; try assumption.
      apply one_at_a_time_block_events.
  - destruct (one_at_a_time_block_fails _ _ _ _ _ _ _ F) as (X & TX & OX).
    exists X. split; [exact TX | exact OX].
  - destruct (one_at_a_time_block_fails _ _ _ _ _ _ _ F) as (X & TX & OX).
    exists (B1 ++ X)%list. split.
    + rewrite TX, T1, <- app_assoc. reflexivity.
    + apply one_at_a_time_app; assumption.
  - destruct (one_at_a_time_block_fails _ _ _ _ _ _ _ F) as (X & TX & OX).
    exists (B1 ++ B2 ++ X)%list. split.
    + rewrite TX, T2, <- !app_assoc. reflexivity.
    + repeat apply one_at_a_time_app; assumption.
Qed.

(** X8.  A NaN reaches a file only if the random source yields one: when
    none of the 300 variates of a run that succeeds is NaN, no value
    written to any of the three files is NaN, whether the variates are
    finite or infinite. *)
Theorem nan_only_from_source (w : world RNG) :
  fst (gensamples w) = Ok tt ->
  let r0 := random_state w in
  let r1 := rng_after Norm 100 r0 in
  let r2 := rng_after Uniform 100 r1 in
  Forall (fun z => is_nan z = false) (fst (draws Norm 100 r0)) ->
  Forall (fun z => is_nan z = false) (fst (draws Uniform 100 r1)) ->
  Forall (fun z => is_nan z = false) (fst (draws Expon 100 r2)) ->
  forall (p : string) (vs : list float),
    (p, vs) ∈ [(normal_txt, generated Norm f100 f10 100 r0);
               (uniform_txt, generated Uniform f75 f50 100 r1);
               (exponential_txt, generated Expon f0 f100 100 r2)] ->
    files (snd (gensamples w)) !! p = Some (written vs)
    /\ Forall (fun v => is_nan v = false) vs.
Proof.
  intros Hok r0 r1 r2 Hn Hu He p vs Hin.
  destruct (success_done w Hok) as [E _]. rewrite E. cbn [snd].
  rewrite files_done3. cbv zeta. fold r0 r1 r2.
  destruct paths_distinct as (H12 & H13 & H23).
  rewrite !elem_of_cons, elem_of_nil in Hin.
  destruct Hin as [Hp | [Hp | [Hp | []]]]; injection Hp as -> ->; split.
  - rewrite lookup_insert_ne, lookup_insert_ne, lookup_insert_eq by congruence. reflexivity.
  - unfold generated. apply Forall_map. eapply Forall_impl; [exact Hn|].
    intros z Hz. apply shift_scale_not_nan; [unfold f10 | right; unfold f100 | exact Hz];
      eauto.
  - rewrite lookup_insert_ne, lookup_insert_eq by congruence. reflexivity.
  - unfold generated. apply Forall_map. eapply Forall_impl; [exact Hu|].
    intros z Hz. apply shift_scale_not_nan; [unfold f50 | right; unfold f75 | exact Hz];
      eauto.
  - rewrite lookup_insert_eq. reflexivity.
  - unfold generated. apply Forall_map. eapply Forall_impl; [exact He|].
    intros z Hz. apply shift_scale_not_nan; [unfold f100 | left; unfold f0, B64.zero | exact Hz];
      eauto.
Qed.

(** X9.  No value written to data/exponential.txt carries a minus sign,
    not even a negative zero: when the exponential source yields numbers
    that compare [>= 0] (a negative zero does), adding the location 0.0
    leaves every written value with its sign bit clear. *)
Theorem exponential_values_unsigned (w : world RNG) :
  fst (gensamples w) = Ok tt ->
  Forall (fun z => B64.leb f0 z = true)
         (fst (draws Expon 100
                 (rng_after Uniform 100 (rng_after Norm 100 (random_state w))))) ->
  exists vs : list float,
    files (snd (gensamples w)) !! exponential_txt = Some (written vs)
    /\ length vs = 100
    /\ Forall (fun v => sign_bit v = false) vs.
Proof.
  intros Hok Hz. destruct (success_done w Hok) as [E _]. rewrite E. cbn [snd].
  eexists. split; [|split].
  - rewrite files_done3. cbv zeta. rewrite lookup_insert_eq. reflexivity.
  - apply generated_length.
  - unfold generated. apply Forall_map.
    eapply Forall_impl; [exact Hz|]. intros z. apply expon_sign_clear.
Qed.

Lemma dom_block_fails p d loc scale size (w w' : world RNG) :
  block_fails p d loc scale size w w' -> dom (files w) ⊆ dom (files w').
Proof.
  intros [[_ ->] | (_ & _ & ->)]; [reflexivity|].
  unfold block_flush_failed. cbn [files]. apply dom_insert_subseteq.
Qed.

Lemma dom_block_done p d loc scale size (w : world RNG) :
  dom (files w) ⊆ dom (files (block_done p d loc scale size w)).
Proof. unfold block_done. cbn [files]. apply dom_insert_subseteq. Qed.

(** X10.  No run removes a file: every path that names a file before the
    run names one after it, whether the run succeeds or fails (an output
    file may be emptied or rewritten, never deleted). *)
Theorem no_file_is_removed (w : world RNG) :
  dom (files w) ⊆ dom (files (snd (gensamples w))).
Proof.
  assert (D1 : dom (files w) ⊆ dom (files (done1 w))) by apply dom_block_done.
  assert (D2 : dom (files w) ⊆ dom (files (done2 w)))
    by (etrans; [exact D1 | apply dom_block_done]).
  destruct (gensamples_cases w)
    as [[_ E] | [(w' & F & E) | [(w' & _ & F & E) | (w' & _ & F & E)]]];
    rewrite E; cbn [snd].
  - etrans; [exact D2 | apply dom_block_done].
  - exact (dom_block_fails _ _ _ _ _ _ _ F).
  - etrans; [exact D1 | exact (dom_block_fails _ _ _ _ _ _ _ F)].
  - etrans; [exact D2 | exact (dom_block_fails _ _ _ _ _ _ _ F)].
Qed.

End ScriptExtras2.

(** * The further properties on the test doubles *)

Lemma Forall_bool_false {A : Type} (f : A -> bool) (l : list A) :
  forallb (fun x => negb (f x)) l = true -> Forall (fun x => f x = false) l.
Proof.
  induction l as [|x l IH]; simpl; intros H; constructor;
    apply andb_prop in H as [Hx Hl]; [apply negb_true_iff, Hx | auto].
Qed.

Lemma notes_not_output : notes_txt ∉ outputs.
Proof.
  unfold outputs. rewrite !not_elem_of_cons.
  repeat split; [discriminate .. | apply not_elem_of_nil].
Qed.

(** The user's file survives a run that fails half-way. *)
Lemma other_files_untouched_witness :
  (notes_txt ∉ outputs)
  /\ files (snd (gensamples (R := tape_runtime (fault_at 3)) crowded_world))
       !! notes_txt
     = Some ("keep me" +:+ newline).
Proof.
  split; [exact notes_not_output|].
  rewrite (other_files_untouched (R := tape_runtime (fault_at 3)) crowded_world
             notes_txt notes_not_output).
  reflexivity.
Defined.

Lemma first_open_failure_has_no_effect_witness :
  @faults _ (tape_runtime (fault_at 0)) (clock crowded_world) = true
  /\ fst (python_main (R := tape_runtime (fault_at 0)) crowded_world) = 1%Z
  /\ files (snd (gensamples (R := tape_runtime (fault_at 0)) crowded_world))
     = files crowded_world
  /\ random_state (snd (gensamples (R := tape_runtime (fault_at 0)) crowded_world))
     = demo_tape.
Proof.
  split; [reflexivity|].
  destruct (first_open_failure_has_no_effect (R := tape_runtime (fault_at 0))
              crowded_world eq_refl) as (H1 & _ & H3 & H4 & _).
  split; [exact H1|]. split; [exact H3 | exact H4].
Defined.

(** The call of index 3 is the closing flush of data/uniform.txt, and 550
    characters reach the file before it fails: the file is left with 91
    lines and the start of the 92nd, and nothing of what it held. *)
Lemma failed_flush_cuts_mid_line :
  fst (gensamples (R := tape_runtime (fault_at 3)) stale_world)
  = Raise (OSError uniform_txt)
  /\ files (snd (gensamples (R := tape_runtime (fault_at 3)) stale_world))
       !! uniform_txt
     = Some (concat_str (repeat ("100.0" +:+ newline) 91) +:+ "100.").
Proof. split; vm_compute; reflexivity. Qed.

Lemma failed_file_is_cut_short_witness :
  fst (gensamples (R := tape_runtime (fault_at 3)) stale_world)
  = Raise (OSError uniform_txt)
  /\ exists vs : list float,
       (uniform_txt, vs)
       ∈ [(normal_txt,
           generated (R := tape_runtime (fault_at 3)) Norm f100 f10 100
             (random_state stale_world));
          (uniform_txt,
           generated (R := tape_runtime (fault_at 3)) Uniform f75 f50 100
             (rng_after (R := tape_runtime (fault_at 3)) Norm 100
                (random_state stale_world)));
          (exponential_txt,
           generated (R := tape_runtime (fault_at 3)) Expon f0 f100 100
             (rng_after (R := tape_runtime (fault_at 3)) Uniform 100
                (rng_after (R := tape_runtime (fault_at 3)) Norm 100
                   (random_state stale_world))))]
       /\ (files (snd (gensamples (R := tape_runtime (fault_at 3)) stale_world))
             !! uniform_txt
           = files stale_world !! uniform_txt
           \/ exists part rest : string,
                files (snd (gensamples (R := tape_runtime (fault_at 3)) stale_world))
                  !! uniform_txt
                = Some part
                /\ written (R := tape_runtime (fault_at 3)) vs = part +:+ rest).
Proof.
  split; [vm_compute; reflexivity|].
  apply (failed_file_is_cut_short (R := tape_runtime (fault_at 3)) stale_world
           uniform_txt).
  vm_compute; reflexivity.
Defined.

(** The call of index 5 is the closing flush of data/exponential.txt. *)
Lemma earlier_files_complete_witness :
  fst (gensamples (R := tape_runtime (fault_at 5)) stale_world)
  = Raise (OSError exponential_txt)
  /\ files (snd (gensamples (R := tape_runtime (fault_at 5)) stale_world))
       !! uniform_txt
     = Some (written (R := tape_runtime (fault_at 5))
               (generated (R := tape_runtime (fault_at 5)) Uniform f75 f50 100
                  (rng_after (R := tape_runtime (fault_at 5)) Norm 100
                     (random_state stale_world)))).
Proof.
  split; [vm_compute; reflexivity|].
  apply (earlier_files_complete (R := tape_runtime (fault_at 5)) stale_world
           exponential_txt);
    [vm_compute; reflexivity | reflexivity].
Defined.

(** Two runs over a cursor: the second process is seeded at the 301st
    value of the tape, wherever the first run stopped. *)
Lemma rerun_holds_last_samples_witness :
  fst (rerun (R := cursor_runtime demo_tape no_fault) 2 cursor_world) = Ok tt
  /\ files (snd (rerun (R := cursor_runtime demo_tape no_fault) 2 cursor_world))
       !! normal_txt
     = Some (written (R := cursor_runtime demo_tape no_fault)
               (generated (R := cursor_runtime demo_tape no_fault) Norm f100 f10 100
                  300))
  /\ random_state (snd (rerun (R := cursor_runtime demo_tape no_fault) 2 cursor_world))
     = 600.
Proof.
  split; [vm_compute; reflexivity|].
  destruct (rerun_holds_last_samples (R := cursor_runtime demo_tape no_fault) 1
              cursor_world) as (H1 & _ & _ & H4); [vm_compute; reflexivity|].
  split; [exact H1|]. rewrite H4. vm_compute. reflexivity.
Defined.

Lemma nan_only_from_source_witness :
  fst (gensamples (R := tape_runtime no_fault) fresh_world) = Ok tt
  /\ Forall (fun z => is_nan z = false) demo_tape
  /\ Forall (fun v => is_nan v = false)
       (generated (R := tape_runtime no_fault) Uniform f75 f50 100
          (rng_after (R := tape_runtime no_fault) Norm 100
             (random_state fresh_world))).
Proof.
  split; [vm_compute; reflexivity|].
  split; [apply Forall_bool_false; vm_compute; reflexivity|].
  apply (nan_only_from_source (R := tape_runtime no_fault) fresh_world)
    with (p := uniform_txt);
    [vm_compute; reflexivity
    | apply Forall_bool_false; vm_compute; reflexivity ..
    | apply list_elem_of_further, list_elem_of_here].
Defined.

(** The first exponential variate of the tape is a negative zero; what is
    written for it is a positive zero. *)
Lemma exponential_values_unsigned_witness :
  fst (gensamples (R := tape_runtime no_fault) (World ∅ ∅ 0 signed_zero_tape []))
  = Ok tt
  /\ Forall (fun z => B64.leb f0 z = true)
       (fst (draws (R := tape_runtime no_fault) Expon 100
               (rng_after (R := tape_runtime no_fault) Uniform 100
                  (rng_after (R := tape_runtime no_fault) Norm 100
                     signed_zero_tape))))
  /\ exists vs : list float,
       files (snd (gensamples (R := tape_runtime no_fault)
                     (World ∅ ∅ 0 signed_zero_tape [])))
         !! exponential_txt
       = Some (written (R := tape_runtime no_fault) vs)
       /\ length vs = 100
       /\ Forall (fun v => sign_bit v = false) vs.
Proof.
  split; [vm_compute; reflexivity|].
  split; [apply Forall_bool; vm_compute; reflexivity|].
  apply (exponential_values_unsigned (R := tape_runtime no_fault)
           (World ∅ ∅ 0 signed_zero_tape []));
    [vm_compute; reflexivity | apply Forall_bool; vm_compute; reflexivity].
Defined.
